(** * SellingPartner.js: the client of the selling-partner API

    A shallow embedding of [lib/SellingPartner.js]: the constructor, the
    token manager ([refreshAccessToken], [refreshRoleCredentials],
    [_validateAccessTokenAndRoleCredentials]), the orchestrator ([callAPI])
    and the transfer codec ([download], [upload]).

    JavaScript values that come from the network are dynamically typed
    ([value]); what the source documents with a type (the configuration, the
    request parameters, the feed, the download options) is a record.  The
    asynchronous methods run in a state monad over the session and the
    outside world (the responses still to arrive and the log of what the
    client did).  What the file requires from other modules is a parameter
    of the client ([Runtime]).

    The model has numbers that are integers and strings of 8-bit
    characters; the few uses of JavaScript that [value] cannot express end
    a computation with the outcome [NotModelled]. *)

From Stdlib Require Import ZArith String Ascii List DecimalString Lia.
From stdpp Require Import base strings list gmap relations.

Open Scope Z_scope.
Open Scope string_scope.
Open Scope list_scope.

(** ** JavaScript values *)

Module JS.

(** Numbers are the integral ones; an object lists its own enumerable
    properties in insertion order.  [VNative] is a function or an object of
    the engine itself, which the client can only meet as a member of
    [Object.prototype]; it carries the text it prints as. *)
#[warnings="-register-all"]
Inductive value : Type :=
| VUndef
| VNull
| VBool (b : bool)
| VNum (n : Z)
| VStr (s : string)
| VArr (xs : list value)
| VObj (fields : list (string * value))
| VNative (text : string).

(** A buffer is a list of bytes, each a number below 256. *)
Definition bytes := list Z.

(** What [download] hands back: a [Buffer], or a string or parsed value. *)
Inductive document : Type :=
| DocBuffer (b : bytes)
| DocValue (v : value).

(** [ToBoolean]. *)
Definition truthy (v : value) : bool :=
  match v with
  | VUndef | VNull => false
  | VBool b => b
  | VNum n => negb (n =? 0)%Z
  | VStr s => negb (String.eqb s "")
  | VArr _ | VObj _ | VNative _ => true
  end.

(** An optional string ([undefined] or a string) as a condition. *)
Definition truthy_str (o : option string) : bool :=
  match o with
  | Some s => negb (String.eqb s "")
  | None => false
  end.

Definition of_opt (o : option string) : value :=
  match o with Some s => VStr s | None => VUndef end.

(** [v === 'lit']. *)
Definition is_str (v : value) (lit : string) : bool :=
  match v with VStr s => String.eqb s lit | _ => false end.

Fixpoint assoc (k : string) (fs : list (string * value)) : option value :=
  match fs with
  | [] => None
  | (k', v) :: fs' => if String.eqb k k' then Some v else assoc k fs'
  end.

Fixpoint assoc_string (k : string) (fs : list (string * string)) : option string :=
  match fs with
  | [] => None
  | (k', v) :: fs' => if String.eqb k k' then Some v else assoc_string k fs'
  end.

Definition nat_key (i : nat) : string := NilZero.string_of_uint (Nat.to_uint i).

Fixpoint string_nth (i : nat) (s : string) : option ascii :=
  match s, i with
  | EmptyString, _ => None
  | String c _, O => Some c
  | String _ s', S i' => string_nth i' s'
  end.

(** [v.k] for a key that is not an array index and not inherited: the keys
    that the client writes out are neither "length" nor a member of a
    prototype.
    [None] is the [TypeError] of reading a property of [undefined] or
    [null]. *)
Definition prop (v : value) (k : string) : option value :=
  match v with
  | VUndef | VNull => None
  | VObj fs => Some (default VUndef (assoc k fs))
  | _ => Some VUndef
  end.

(** [v[i]] for a literal index. *)
Definition index (v : value) (i : nat) : option value :=
  match v with
  | VUndef | VNull => None
  | VObj fs => Some (default VUndef (assoc (nat_key i) fs))
  | VArr xs => Some (default VUndef (xs !! i))
  | VStr s => Some (from_option (fun c => VStr (String c EmptyString)) VUndef (string_nth i s))
  | _ => Some VUndef
  end.

Fixpoint join (sep : string) (l : list string) : string :=
  match l with
  | [] => ""
  | [s] => s
  | s :: l' => s +:+ sep +:+ join sep l'
  end.

(** [ToString]; inside [Array.prototype.join] the holes [undefined] and
    [null] print as the empty string. *)
Fixpoint ToString (v : value) : string :=
  match v with
  | VUndef => "undefined"
  | VNull => "null"
  | VBool true => "true"
  | VBool false => "false"
  | VNum n => NilZero.string_of_int (Z.to_int n)
  | VStr s => s
  | VArr xs =>
      join "," (map (fun x => match x with
                              | VUndef | VNull => ""
                              | _ => ToString x
                              end) xs)
  | VObj _ => "[object Object]"
  | VNative text => text
  end.

(** The own enumerable string-keyed properties that [Object.assign] copies
    from a source. *)
Fixpoint indexed {A} (i : nat) (l : list A) : list (string * A) :=
  match l with
  | [] => []
  | x :: l' => (nat_key i, x) :: indexed (S i) l'
  end.

Definition own_props (v : value) : list (string * value) :=
  match v with
  | VObj fs => fs
  | VArr xs => indexed 0 xs
  | VStr s => indexed 0 (map (fun c => VStr (String c EmptyString)) (list_ascii_of_string s))
  | _ => []
  end.

(** [target[k] = v]: an existing key keeps its place, a new one goes last. *)
Fixpoint set_field (k : string) (v : value) (fs : list (string * value))
  : list (string * value) :=
  match fs with
  | [] => [(k, v)]
  | (k', v') :: fs' =>
      if String.eqb k k' then (k, v) :: fs' else (k', v') :: set_field k v fs'
  end.

Definition assign_fields (target src : list (string * value)) : list (string * value) :=
  fold_left (fun acc kv => set_field kv.1 kv.2 acc) src target.

(** [Object.assign(target, source)] on a plain-object target; [None] for any
    other target (an array or a wrapped primitive that receives extra
    properties has no counterpart in [value]). *)
Definition Object_assign (target source : value) : option value :=
  match target with
  | VObj fs => Some (VObj (assign_fields fs (own_props source)))
  | _ => None
  end.

(** What an ordinary object inherits: the members of [Object.prototype]. *)
Definition Object_prototype (k : string) : option value :=
  if String.eqb k "constructor" then Some (VNative "function Object() { [native code] }")
  else if String.eqb k "__proto__" then Some (VNative "[object Object]")
  else if existsb (String.eqb k)
            ["__defineGetter__"; "__defineSetter__"; "hasOwnProperty";
             "__lookupGetter__"; "__lookupSetter__"; "isPrototypeOf";
             "propertyIsEnumerable"; "toString"; "valueOf"; "toLocaleString"]
  then Some (VNative ("function " +:+ k +:+ "() { [native code] }"))
  else None.

(** A string literal between double quotes. *)
Definition quoted (s : string) : string :=
  String "034"%char (s +:+ String "034"%char EmptyString).

(** [Buffer.prototype.toJSON], what [JSON.stringify] sees of a buffer. *)
Definition Buffer_toJSON (b : bytes) : value :=
  VObj [("type", VStr "Buffer"); ("data", VArr (map VNum b))].

End JS.
Export JS.

(** ** The regular expressions and string methods the client uses *)

Module Re.

Fixpoint strip_prefix (p s : string) : option string :=
  match p, s with
  | EmptyString, _ => Some s
  | String a p', String b s' => if Ascii.eqb a b then strip_prefix p' s' else None
  | String _ _, EmptyString => None
  end.

(** [.] matches everything but a line terminator (of the 8-bit
    characters, line feed and carriage return). *)
Definition line_terminator (c : ascii) : bool :=
  Ascii.eqb c "010"%char || Ascii.eqb c "013"%char.

(** [/.*lit/] anchored at the start of [s]. *)
Fixpoint dotstar_then (lit s : string) : bool :=
  String.prefix lit s
  || match s with
     | EmptyString => false
     | String c s' => negb (line_terminator c) && dotstar_then lit s'
     end.

(** [/a.*b/.test(s)]. *)
Fixpoint test_dotstar (a b s : string) : bool :=
  match strip_prefix a s with
  | Some rest => dotstar_then b rest
  | None => false
  end
  || match s with
     | EmptyString => false
     | String _ s' => test_dotstar a b s'
     end.

Definition access_token_expired (v : value) : bool :=
  test_dotstar "access token" "expired" (ToString v).

Definition security_token_expired (v : value) : bool :=
  test_dotstar "security token" "expired" (ToString v).

(** [/^(eu|na|fe)$/.test(s)]. *)
Definition valid_region (s : string) : bool :=
  String.eqb s "eu" || String.eqb s "na" || String.eqb s "fe".

(** [s.includes(sub)]. *)
Fixpoint includes (sub s : string) : bool :=
  String.prefix sub s
  || match s with
     | EmptyString => false
     | String _ s' => includes sub s'
     end.

(** [s.replace(/\n/g, '')]. *)
Fixpoint strip_newlines (s : string) : string :=
  match s with
  | EmptyString => EmptyString
  | String c s' =>
      if Ascii.eqb c "010"%char then strip_newlines s' else String c (strip_newlines s')
  end.

Fixpoint take_until_semicolon (s : string) : string :=
  match s with
  | EmptyString => EmptyString
  | String c s' =>
      if Ascii.eqb c ";"%char then EmptyString else String c (take_until_semicolon s')
  end.

(** The first group of [s.match(regexp_charset)]: what follows the first
    "charset=" up to the next semicolon. *)
Fixpoint match_charset (s : string) : option string :=
  match strip_prefix "charset=" s with
  | Some rest => Some (take_until_semicolon rest)
  | None =>
      match s with
      | EmptyString => None
      | String _ s' => match_charset s'
      end
  end.

(** [toUpperCase] on the letters of ASCII, which is all that the
    comparison with "ISO-8859-1" can see. *)
Definition upper (c : ascii) : ascii :=
  let n := nat_of_ascii c in
  if (97 <=? n)%nat && (n <=? 122)%nat then ascii_of_nat (n - 32) else c.

Fixpoint toUpperCase (s : string) : string :=
  match s with
  | EmptyString => EmptyString
  | String c s' => String (upper c) (toUpperCase s')
  end.

End Re.

(** ** Errors, the outside world and the monad of the asynchronous methods *)

Module Eff.

(** What a method can throw (or reject with): a [CustomError] built from an
    object with a code and a message, the engine's [TypeError], or the error
    of a library (transport, file system, zlib, crypto, credential loader). *)
Inductive exn : Type :=
| CustomError (err : value)
| TypeError
| ForeignError (reason : value).

Definition custom_v (code message : value) : exn :=
  CustomError (VObj [("code", code); ("message", message)]).

Definition custom (code : string) (message : value) : exn :=
  custom_v (VStr code) message.

Definition exn_code (e : exn) : value :=
  match e with
  | CustomError err => default VUndef (prop err "code")
  | _ => VUndef
  end.

Inductive result (A : Type) : Type :=
| Ok (a : A)
| Err (reason : value).
Arguments Ok {A} a.
Arguments Err {A} reason.

Inductive req_body : Type :=
| NoBody
| TextBody (s : string)
| BufferBody (b : bytes).

(** The argument of the transport's [request]. *)
Record http_request := {
  rq_method : option string;
  rq_url : value;
  rq_headers : list (string * value);
  rq_body : req_body
}.

Record response := {
  statusCode : Z;
  body : string;
  chunks : list bytes;
  headers : list (string * string)
}.

Inductive reply : Type :=
| Reply (res : response)
| NetworkError (reason : value).

(** What the client does to the outside, in the order it does it. *)
Inductive event : Type :=
| EvRequest (rq : http_request)
| EvSetTimeout (ms : Z)
| EvReadFile (path encoding : string)
| EvWriteFile (path : string) (data : document).

Record options := {
  auto_request_tokens : bool;
  auto_request_throttled : bool;
  use_sandbox : bool;
  only_grantless_operations : bool;
  credentials_path : option string
}.

(** The fields of a [SellingPartner] instance. *)
Record session := {
  _region : option string;
  _refresh_token : value;
  _access_token : value;
  _role_credentials : value;
  _grantless_tokens : gmap string value;
  _options : options;
  _credentials : value
}.

Definition set_access_token (tok : value) (s : session) : session :=
  {| _region := _region s; _refresh_token := _refresh_token s;
     _access_token := tok;
     _role_credentials := _role_credentials s;
     _grantless_tokens := _grantless_tokens s;
     _options := _options s; _credentials := _credentials s |}.

Definition set_grantless_token (scope : string) (tok : value) (s : session) : session :=
  {| _region := _region s; _refresh_token := _refresh_token s;
     _access_token := _access_token s;
     _role_credentials := _role_credentials s;
     _grantless_tokens := <[scope := tok]> (_grantless_tokens s);
     _options := _options s; _credentials := _credentials s |}.

Definition set_role_credentials (rc : value) (s : session) : session :=
  {| _region := _region s; _refresh_token := _refresh_token s;
     _access_token := _access_token s;
     _role_credentials := rc;
     _grantless_tokens := _grantless_tokens s;
     _options := _options s; _credentials := _credentials s |}.

(** The responses the transport will deliver, in order, and the log. *)
Record world := {
  inbox : list reply;
  log : list event
}.

Record state := {
  sess : session;
  wld : world
}.

Inductive outcome (A : Type) : Type :=
| Return (a : A)
| Throw (e : exn)
| Pending       (* awaits a response that never arrives *)
| OutOfFuel     (* the bound on the retries of the model is used up *)
| NotModelled.  (* JavaScript outside the embedded fragment *)
Arguments Return {A} a.
Arguments Throw {A} e.
Arguments Pending {A}.
Arguments OutOfFuel {A}.
Arguments NotModelled {A}.

Definition M (A : Type) : Type := state -> outcome A * state.

Definition ret {A} (a : A) : M A := fun st => (Return a, st).

Definition bind {A B} (m : M A) (k : A -> M B) : M B :=
  fun st =>
    match m st with
    | (Return a, st') => k a st'
    | (Throw e, st') => (Throw e, st')
    | (Pending, st') => (Pending, st')
    | (OutOfFuel, st') => (OutOfFuel, st')
    | (NotModelled, st') => (NotModelled, st')
    end.

#[export] Instance M_ret : MRet M := @ret.
#[export] Instance M_bind : MBind M := fun A B k m => bind m k.

Definition throw {A} (e : exn) : M A := fun st => (Throw e, st).
Definition not_modelled {A} : M A := fun st => (NotModelled, st).
Definition out_of_fuel {A} : M A := fun st => (OutOfFuel, st).

Definition get_session : M session := fun st => (Return (sess st), st).

Definition update_session (f : session -> session) : M unit :=
  fun st => (Return tt, {| sess := f (sess st); wld := wld st |}).

Definition emit (ev : event) : M unit :=
  fun st =>
    (Return tt,
     {| sess := sess st;
        wld := {| inbox := inbox (wld st); log := log (wld st) ++ [ev] |} |}).

(** The transport: the request goes out, the next response comes in. *)
Definition request (rq : http_request) : M response :=
  fun st =>
    let lg := log (wld st) ++ [EvRequest rq] in
    match inbox (wld st) with
    | [] => (Pending, {| sess := sess st; wld := {| inbox := []; log := lg |} |})
    | Reply res :: rest =>
        (Return res, {| sess := sess st; wld := {| inbox := rest; log := lg |} |})
    | NetworkError reason :: rest =>
        (Throw (ForeignError reason),
         {| sess := sess st; wld := {| inbox := rest; log := lg |} |})
    end.

(** [v.k], with the [TypeError] when [v] is [undefined] or [null]. *)
Definition get_prop (v : value) (k : string) : M value :=
  match prop v k with
  | Some x => ret x
  | None => throw TypeError
  end.

Definition get_index (v : value) (i : nat) : M value :=
  match index v i with
  | Some x => ret x
  | None => throw TypeError
  end.

Definition lift_result {A} (r : result A) : M A :=
  match r with
  | Ok a => ret a
  | Err reason => throw (ForeignError reason)
  end.

(** [v && v.k]. *)
Definition and_prop (v : value) (k : string) : M value :=
  if truthy v then get_prop v k else ret v.

End Eff.
Export Eff.

(** ** The typed arguments of the public methods *)

Module Args.

(** The [req_params] object of [callAPI], before and after the catalog has
    expanded it: the operation name, and what an entry of the catalog adds
    (HTTP method, scope of a grantless operation, restore rate in seconds).
    [params] stands for the path, query and body parameters, which the
    client only hands on to the signer. *)
Record request_params := {
  operation : option string;
  method : option string;
  scope : option string;
  restore_rate : Z;
  params : value
}.

(** The [feed] object of [upload]. *)
Record feed_object := {
  content : option string;
  file : option string;
  contentType : option string
}.

(** The [options] object of [download]. *)
Record download_options := {
  opt_json : bool;
  opt_unzip : option bool;
  opt_file : option string;
  opt_charset : option string
}.

(** The [options] entry of the configuration: every key is optional. *)
Record config_options := {
  cfg_auto_request_tokens : option bool;
  cfg_auto_request_throttled : option bool;
  cfg_use_sandbox : option bool;
  cfg_only_grantless_operations : option bool;
  cfg_credentials_path : option string
}.

(** The [config] object of the constructor. *)
Record config_object := {
  cfg_region : option string;
  cfg_refresh_token : value;
  cfg_access_token : value;
  cfg_role_credentials : value;
  cfg_options : option config_options;
  cfg_credentials : value
}.

(** [download(details)] with the options left out. *)
Definition no_options : download_options :=
  {| opt_json := false; opt_unzip := None; opt_file := None; opt_charset := None |}.

(** The descriptor of a document to transfer, as the feed and report
    operations of the API return it: the presigned URL, the key and the
    initialization vector in base64, and the compression when there is one. *)
Definition transfer_details (url key iv : string) (compressionAlgorithm : option string)
  : value :=
  VObj ([("encryptionDetails",
          VObj [("standard", VStr "AES");
                ("initializationVector", VStr iv);
                ("key", VStr key)]);
         ("url", VStr url)]
        ++ match compressionAlgorithm with
           | Some c => [("compressionAlgorithm", VStr c)]
           | None => []
           end).

End Args.
Export Args.

(** ** What the client requires from other modules

    [JSON], [fast-xml-parser], [csvtojson], [iconv-lite], [Buffer],
    [crypto], [zlib] and [fs] are libraries; [./operations], [./Signer] and
    [./credentials] are modules of the package that the analysed file only
    calls.  The client is a function of all of them. *)
Record Runtime := {
  (** [JSON.parse]; [None] when it throws. *)
  JSON_parse : string -> option value;
  JSON_stringify : value -> string;
  (** [xml_parser.parse]; [None] when it throws. *)
  xml_parse : string -> option value;
  (** [csv({delimiter:'\t', quote:'off'}).fromString]; [None] when it rejects. *)
  csv_fromString : string -> option value;
  (** [iconv.decode(buffer, charset)]; the reason is the message of the error. *)
  iconv_decode : bytes -> string -> result string;
  (** [buffer.toString()], the UTF-8 decoder, and the encoder that
      [cipher.update] applies to a string. *)
  utf8_decode : bytes -> string;
  utf8_encode : string -> bytes;
  (** [Buffer.from(s, 'base64')]. *)
  base64_decode : string -> bytes;
  (** [crypto.createCipheriv('aes-256-cbc', key, iv)] followed by [update]
      and [final], and the same for [createDecipheriv]. *)
  aes_256_cbc_encrypt : bytes -> bytes -> bytes -> result bytes;
  aes_256_cbc_decrypt : bytes -> bytes -> bytes -> result bytes;
  (** [zlib.gunzip]. *)
  gunzip : bytes -> result bytes;
  (** [fs.readFile(file, encoding)] and [fs.writeFile(file, data)]. *)
  fs_readFile : string -> string -> result string;
  fs_writeFile : string -> document -> option value;
  (** [operations[name]]: the entry of the catalog under that name, a
      function that expands the request parameters; [None] when the lookup
      yields nothing. *)
  operations : string -> option (request_params -> request_params);
  (** [new Signer(region, use_sandbox).signAPIRequest(token, role_credentials, req_params)]. *)
  signAPIRequest : option string -> bool -> value -> value -> request_params -> http_request;
  (** [new Signer(region).signRoleCredentialsRequest(aws_user)]. *)
  signRoleCredentialsRequest : option string -> value -> http_request;
  (** [credentials.load(config.credentials, credentials_path)]: the bundle,
      or what the loader throws. *)
  credentials_load : value -> option string -> exn + value
}.

(** ** The class *)

Module SellingPartner.

Section Client.

Context (R : Runtime).

(** Lines 44-71. *)
Definition constructor (config : config_object) : outcome session :=
  let o := cfg_options config in
  let _options :=
    {| auto_request_tokens := default true (o ≫= cfg_auto_request_tokens);
       auto_request_throttled := default true (o ≫= cfg_auto_request_throttled);
       use_sandbox := default false (o ≫= cfg_use_sandbox);
       only_grantless_operations := default false (o ≫= cfg_only_grantless_operations);
       credentials_path := o ≫= cfg_credentials_path |} in
  match credentials_load R (cfg_credentials config) (credentials_path _options) with
  | inl e => Throw e
  | inr _credentials =>
      let this :=
        {| _region := cfg_region config;
           _refresh_token := cfg_refresh_token config;
           _access_token := cfg_access_token config;
           _role_credentials := cfg_role_credentials config;
           _grantless_tokens := ∅;
           _options := _options;
           _credentials := _credentials |} in
      if negb (truthy_str (_region this))
         || negb (Re.valid_region (default "" (_region this)))
      then Throw (custom "NO_VALID_REGION_PROVIDED"
                    (VStr ("Please provide one of: " +:+ quoted "eu" +:+ ", " +:+ quoted "na"
                           +:+ " or " +:+ quoted "fe")))
      else if negb (truthy (_refresh_token this))
              && negb (only_grantless_operations _options)
      then Throw (custom "NO_REFRESH_TOKEN_PROVIDED"
                    (VStr ("Please provide a refresh token or set "
                           +:+ quoted "only_grantless_operations" +:+ " option to true")))
      else Return this
  end.

(** Lines 81-85: a timer of [restore_rate * 1000] milliseconds. *)
Definition _wait (restore_rate : Z) : M unit :=
  emit (EvSetTimeout (restore_rate * 1000)).

(** Lines 87-96. *)
Definition _unzip (buffer : bytes) : M bytes :=
  lift_result (gunzip R buffer).

(** Lines 98-107; [JSON.stringify] of [undefined] or of a function is not
    a string and is left out of the model. *)
Definition _saveFile (content : document) (json : bool) (file : string) : M unit :=
  content ←
    (if json then
       match content with
       | DocValue VUndef | DocValue (VNative _) => not_modelled
       | DocValue v => mret (DocValue (VStr (JSON_stringify R v)))
       | DocBuffer b => mret (DocValue (VStr (JSON_stringify R (Buffer_toJSON b))))
       end
     else mret content);
  emit (EvWriteFile file content);;
  match fs_writeFile R file content with
  | Some err => throw (ForeignError err)
  | None => mret tt
  end.

(** Lines 109-122. *)
Definition _readFile (file content_type : string) : M string :=
  let content_match := Re.match_charset content_type in
  let encoding :=
    match content_match with
    | Some g => if String.eqb g "" then "utf-8" else g
    | None => "utf-8"
    end in
  let encoding :=
    if String.eqb (Re.toUpperCase encoding) "ISO-8859-1" then "latin1" else encoding in
  emit (EvReadFile file encoding);;
  lift_result (fs_readFile R file encoding).

(** Lines 124-146. *)
Definition _validateEncryptionDetails (details : value) : M unit :=
  missing ←
    (if negb (truthy details) then mret true
     else
       enc ← get_prop details "encryptionDetails";
       if negb (truthy enc) then mret true
       else url ← get_prop details "url"; mret (negb (truthy url)));
  if missing : bool then
    throw (custom "DOWNLOAD_INFORMATION_MISSING"
             (VStr "Please provide encryptionDetails and url"))
  else
    enc ← get_prop details "encryptionDetails";
    standard ← get_prop enc "standard";
    if negb (is_str standard "AES") then
      throw (custom "UNKNOWN_ENCRYPTION_STANDARD"
               (VStr ("Cannot decrypt " +:+ ToString standard +:+ ", expecting AES")))
    else
      compression ← get_prop details "compressionAlgorithm";
      if truthy compression && negb (is_str compression "GZIP") then
        throw (custom "UNKNOWN_ZIP_STANDARD"
                 (VStr ("Cannot unzip " +:+ ToString compression +:+ ", expecting GZIP")))
      else mret tt.

(** Lines 148-171. *)
Definition _validateUpOrDownloadSuccess (res : response) (request_type : string) : M unit :=
  if (statusCode res =? 200)%Z then mret tt
  else
    match xml_parse R (body res) with
    | None => throw (custom (request_type +:+ "_ERROR") (VStr (body res)))
    | Some json_res =>
        err ← and_prop json_res "Error";
        if truthy err then
          code ← get_prop err "Code";
          message ← get_prop err "Message";
          throw (custom_v code message)
        else throw (custom (request_type +:+ "_ERROR") json_res)
    end.

Definition valid_scopes : list string :=
  ["sellingpartnerapi::notifications"; "sellingpartnerapi::migration"].

(** Lines 173-199. *)
Definition _constructRefreshAccessTokenBody (scope : option string) : M string :=
  this ← get_session;
  app_client ← get_prop (_credentials this) "app_client";
  client_id ← get_prop app_client "id";
  client_secret ← get_prop app_client "secret";
  let body := [("client_id", client_id); ("client_secret", client_secret)] in
  if truthy_str scope then
    if negb (existsb (String.eqb (default "" scope)) valid_scopes) then
      throw (custom "INVALID_SCOPE_ERROR"
               (VStr ("Scope for requesting token for grantless operations is invalid. Please provide one of: "
                      +:+ join "," valid_scopes)))
    else
      mret (JSON_stringify R
              (VObj (body ++ [("grant_type", VStr "client_credentials");
                              ("scope", of_opt scope)])))
  else if negb (only_grantless_operations (_options this)) then
    mret (JSON_stringify R
            (VObj (body ++ [("grant_type", VStr "refresh_token");
                            ("refresh_token", _refresh_token this)])))
  else
    throw (custom "NO_SCOPE_PROVIDED"
             (VStr ("Grantless tokens require a scope. Please provide one of: "
                    +:+ join "," valid_scopes))).

(** [this._grantless_tokens[scope]].  The cache starts as the object
    literal of line 50, so a key it does not hold is read from
    [Object.prototype]. *)
Definition grantless_token (this : session) (scope : option string) : value :=
  match _grantless_tokens this !! default "" scope with
  | Some tok => tok
  | None => default VUndef (Object_prototype (default "" scope))
  end.

(** Lines 201-203, as the condition it is used for. *)
Definition _tokenExists (this : session) (scope : option string) : bool :=
  (truthy (_access_token this) && negb (truthy_str scope))
  || (truthy_str scope && truthy (grantless_token this scope)).

(** Lines 222-235. *)
Definition _validateOperation (operation : option string) : M unit :=
  if negb (truthy_str operation) then
    throw (custom "NO_OPERATION_GIVEN" (VStr "Please provide an operation to call"))
  else
    match operations R (default "" operation) with
    | None =>
        throw (custom "OPERATION_NOT_FOUND"
                 (VStr ("No operation found: " +:+ default "" operation)))
    | Some _ => mret tt
    end.

(** Lines 237-244. *)
Definition _validateOperationAllowance (scope : option string) : M unit :=
  this ← get_session;
  if only_grantless_operations (_options this) && negb (truthy_str scope) then
    throw (custom "INVALID_OPERATION_ERROR"
             (VStr ("Operation is not grantless. Set " +:+ quoted "only_grantless_operations"
                    +:+ " to false and provide a " +:+ quoted "refresh_token"
                    +:+ " to be able to call the operation.")))
  else mret tt.

(** Lines 267-271: where a fresh token goes. *)
Definition store_token (scope : option string) (access_token : value) (this : session)
  : session :=
  if negb (truthy_str scope) then set_access_token access_token this
  else set_grantless_token (default "" scope) access_token this.

(** Lines 248-283. *)
Definition refreshAccessToken (scope : option string) : M unit :=
  request_body ← _constructRefreshAccessTokenBody scope;
  res ← request {| rq_method := Some "POST";
                   rq_url := VStr "https://api.amazon.com/auth/o2/token";
                   rq_headers := [("Content-Type", VStr "application/json")];
                   rq_body := TextBody request_body |};
  match JSON_parse R (body res) with
  | None => throw (custom "REFRESH_ACCESS_TOKEN_PARSE_ERROR" (VStr (body res)))
  | Some json_res =>
      access_token ← get_prop json_res "access_token";
      if truthy access_token then update_session (store_token scope access_token)
      else
        error ← get_prop json_res "error";
        if truthy error then
          error_description ← get_prop json_res "error_description";
          throw (custom_v error error_description)
        else throw (custom "UNKNOWN_REFRESH_ACCESS_TOKEN_ERROR" (VStr (body res)))
  end.

(** Lines 285-315. *)
Definition refreshRoleCredentials : M unit :=
  this ← get_session;
  aws_user ← get_prop (_credentials this) "aws_user";
  let signed_request := signRoleCredentialsRequest R (_region this) aws_user in
  res ← request signed_request;
  match xml_parse R (body res) with
  | None => throw (custom "XML_PARSE_ERROR" (VStr (body res)))
  | Some json_res =>
      a ← and_prop json_res "AssumeRoleResponse";
      b ← and_prop a "AssumeRoleResult";
      role_credentials ← and_prop b "Credentials";
      if truthy role_credentials then
        id ← get_prop role_credentials "AccessKeyId";
        secret ← get_prop role_credentials "SecretAccessKey";
        security_token ← get_prop role_credentials "SessionToken";
        update_session
          (set_role_credentials
             (VObj [("id", id); ("secret", secret); ("security_token", security_token)]))
      else
        e ← and_prop json_res "ErrorResponse";
        error ← and_prop e "Error";
        if truthy error then
          code ← get_prop error "Code";
          message ← get_prop error "Message";
          throw (custom_v code message)
        else throw (custom "NO_ROLE_CREDENTIALS_RECEIVED" (VStr (body res)))
  end.

Definition no_token_or_role_credentials : exn :=
  custom "NO_ACCESS_TOKEN_AND_OR_ROLE_CREDENTIALS_PRESENT"
    (VStr ("Did you turn off " +:+ quoted "auto_request_tokens"
           +:+ " and forgot to refresh the access token and/or role credentials and/or the scope for a grantless token?")).

(** Lines 205-220. *)
Definition _validateAccessTokenAndRoleCredentials (scope : option string) : M unit :=
  this ← get_session;
  (if auto_request_tokens (_options this) then
     (if negb (_tokenExists this scope) then refreshAccessToken scope else mret tt);;
     this ← get_session;
     if negb (truthy (_role_credentials this)) then refreshRoleCredentials else mret tt
   else mret tt);;
  this ← get_session;
  if negb (_tokenExists this scope) || negb (truthy (_role_credentials this)) then
    throw no_token_or_role_credentials
  else mret tt.

(** Line 329: the token that goes into the signed request. *)
Definition token_for_request (this : session) (scope : option string) : value :=
  if truthy_str scope then grantless_token this scope else _access_token this.

(** Lines 323-331 of [callAPI]: up to the answer of the transport.  The
    expanded request parameters are handed on with the response. *)
Definition callAPI_send (req_params : request_params) : M (request_params * response) :=
  _validateOperation (operation req_params);;
  match operations R (default "" (operation req_params)) with
  | None => throw TypeError
  | Some expand =>
      let req_params := expand req_params in
      let scope := scope req_params in
      _validateOperationAllowance scope;;
      _validateAccessTokenAndRoleCredentials scope;;
      this ← get_session;
      let token_for_request := token_for_request this scope in
      let signed_request :=
        signAPIRequest R (_region this) (use_sandbox (_options this))
          token_for_request (_role_credentials this) req_params in
      res ← request signed_request;
      mret (req_params, res)
  end.

(** Lines 332-379 of [callAPI]: what the response means.  [callAPI] is the
    method itself, for the retries. *)
Definition callAPI_interpret (callAPI : request_params -> M value)
    (req_params : request_params) (res : response) : M value :=
  let scope := scope req_params in
  if (statusCode res =? 204)%Z && bool_decide (method req_params = Some "DELETE") then
    mret (VObj [("success", VBool true)])
  else
    match JSON_parse R (Re.strip_newlines (body res)) with
    | None => throw (custom "JSON_PARSE_ERROR" (VStr (body res)))
    | Some json_res =>
        errors ← get_prop json_res "errors";
        if truthy errors then
          error ← get_index errors 0;
          this ← get_session;
          code ← get_prop error "code";
          if (statusCode res =? 403)%Z && is_str code "Unauthorized" then
            if auto_request_tokens (_options this) then
              details ← get_prop error "details";
              if Re.access_token_expired details then
                refreshAccessToken scope;;
                callAPI req_params
              else
                message ← get_prop error "message";
                if Re.security_token_expired message then
                  refreshRoleCredentials;;
                  callAPI req_params
                else throw (CustomError error)
            else throw (CustomError error)
          else if (statusCode res =? 429)%Z && is_str code "QuotaExceeded"
                  && auto_request_throttled (_options this) then
            _wait (restore_rate req_params);;
            callAPI req_params
          else if is_str code "InternalFailure" && use_sandbox (_options this) then
            throw (custom "INVALID_SANDBOX_PARAMETERS"
                     (VStr "You're in SANDBOX mode, make sure sandbox parameters are correct, as in Amazon SP API documentation: https://github.com/amzn/selling-partner-api-docs/blob/main/guides/developer-guide/SellingPartnerApiDeveloperGuide.md#how-to-make-a-sandbox-call-to-the-selling-partner-api"))
          else throw (CustomError error)
        else
          pagination ← get_prop json_res "pagination";
          payload ← get_prop json_res "payload";
          if truthy pagination && truthy payload then
            match Object_assign pagination payload with
            | Some merged => mret merged
            | None => not_modelled
            end
          else if truthy payload then mret payload
          else mret json_res
    end.

(** Lines 322-380.  The method calls itself without a bound; the model
    counts the invocations down from [fuel]. *)
Fixpoint callAPI (fuel : nat) (req_params : request_params) : M value :=
  match fuel with
  | O => out_of_fuel
  | S fuel' =>
      '(expanded, res) ← callAPI_send req_params;
      callAPI_interpret (callAPI fuel') expanded res
  end.

(** [Buffer.from(v, 'base64')] for the key and the initialization vector:
    a string is decoded, a missing, boolean or numeric one is a
    [TypeError]; arrays, objects and functions are left out of the model. *)
Definition Buffer_from_base64 (v : value) : M bytes :=
  match v with
  | VStr s => mret (base64_decode R s)
  | VUndef | VNull | VBool _ | VNum _ => throw TypeError
  | VArr _ | VObj _ | VNative _ => not_modelled
  end.

Definition parse_error (decrypted : string) : exn :=
  CustomError (VObj [("code", VStr "PARSE_ERROR");
                     ("message", VStr "Could not parse result to JSON.");
                     ("details", VStr decrypted)]).

(** Lines 390-450. *)
Definition download (details : value) (options : download_options) : M document :=
  let unzip := default true (opt_unzip options) in
  _validateEncryptionDetails details;;
  url ← get_prop details "url";
  res ← request {| rq_method := None; rq_url := url; rq_headers := []; rq_body := NoBody |};
  _validateUpOrDownloadSuccess res "DOWNLOAD";;
  let encrypted_buffer := concat (chunks res) in
  encryptionDetails ← get_prop details "encryptionDetails";
  key ← get_prop encryptionDetails "key";
  key ← Buffer_from_base64 key;
  iv ← get_prop encryptionDetails "initializationVector";
  iv ← Buffer_from_base64 iv;
  decrypted_buffer ← lift_result (aes_256_cbc_decrypt R key iv encrypted_buffer);
  compressionAlgorithm ← get_prop details "compressionAlgorithm";
  decrypted_buffer ←
    (if truthy compressionAlgorithm && unzip then _unzip decrypted_buffer
     else mret decrypted_buffer);
  decrypted ←
    (if negb (truthy compressionAlgorithm) || unzip then
       decrypted ←
         (if truthy_str (opt_charset options) then
            match iconv_decode R decrypted_buffer (default "" (opt_charset options)) with
            | Ok s => mret s
            | Err message => throw (custom "DECODE_ERROR" message)
            end
          else mret (utf8_decode R decrypted_buffer));
       if opt_json options then
         match assoc_string "content-type" (headers res) with
         | None => throw (parse_error decrypted)
         | Some content_type =>
             if Re.includes "xml" content_type then
               match xml_parse R decrypted with
               | Some v => mret (DocValue v)
               | None => throw (parse_error decrypted)
               end
             else if Re.includes "plain" content_type then
               match csv_fromString R decrypted with
               | Some v => mret (DocValue v)
               | None => throw (parse_error decrypted)
               end
             else mret (DocValue (VStr decrypted))
         end
       else mret (DocValue (VStr decrypted))
     else mret (DocBuffer decrypted_buffer));
  (if truthy_str (opt_file options) then
     _saveFile decrypted (opt_json options) (default "" (opt_file options))
   else mret tt);;
  mret decrypted.

(** Lines 474-491 of [upload]: the content is encrypted and put. *)
Definition upload_content (details : value) (feed : feed_object) (feed_content : string)
  : M value :=
  encryptionDetails ← get_prop details "encryptionDetails";
  key ← get_prop encryptionDetails "key";
  key ← Buffer_from_base64 key;
  iv ← get_prop encryptionDetails "initializationVector";
  iv ← Buffer_from_base64 iv;
  encrypted_buffer ←
    lift_result (aes_256_cbc_encrypt R key iv (utf8_encode R feed_content));
  url ← get_prop details "url";
  res ← request {| rq_method := Some "PUT";
                   rq_url := url;
                   rq_headers := [("Content-Type", of_opt (contentType feed))];
                   rq_body := BufferBody encrypted_buffer |};
  _validateUpOrDownloadSuccess res "UPLOAD";;
  mret (VObj [("success", VBool true)]).

Definition no_feed_content : exn :=
  custom "NO_FEED_CONTENT_PROVIDED"
    (VStr ("Please provide " +:+ quoted "content" +:+ " (string) or "
           +:+ quoted "file" +:+ " (absolute path) of feed.")).

(** Lines 459-492. *)
Definition upload (details : value) (feed : option feed_object) : M value :=
  _validateEncryptionDetails details;;
  match feed with
  | None => throw no_feed_content
  | Some feed =>
      if negb (truthy_str (content feed)) && negb (truthy_str (file feed)) then
        throw no_feed_content
      else if negb (truthy_str (contentType feed)) then
        throw (custom "NO_FEED_CONTENT_TYPE_PROVIDED"
                 (VStr ("Please provide " +:+ quoted "contentType"
                        +:+ " of feed (should be identical to the contentType used in "
                        +:+ quoted "createFeedDocument" +:+ " operation).")))
      else
        feed_content ←
          (if truthy_str (content feed) then mret (default "" (content feed))
           else _readFile (default "" (file feed)) (default "" (contentType feed)));
        upload_content details feed feed_content
  end.

(** Lines 73-79: the getters. *)
Definition access_token (this : session) : value := _access_token this.

Definition role_credentials (this : session) : value := _role_credentials this.

End Client.

End SellingPartner.
Import SellingPartner.

(** ** The cipher behind ['aes-256-cbc']

    Node's [crypto] is outside the package.  What the name of the algorithm
    fixes is the mode: cipher-block chaining over 16-byte blocks with PKCS#7
    padding, a 32-byte key and a 16-byte initialization vector.  The block
    permutation itself stays a parameter. *)

Module AesCbc.

Section Mode.

Variable block_encrypt block_decrypt : bytes -> bytes -> bytes.

Definition xor_block (a b : bytes) : bytes := zip_with Z.lxor a b.

Definition pad_length (data : bytes) : nat := (16 - length data mod 16)%nat.

Definition pkcs7_pad (data : bytes) : bytes :=
  data ++ replicate (pad_length data) (Z.of_nat (pad_length data)).

Definition pkcs7_unpad (data : bytes) : option bytes :=
  match last data with
  | None => None
  | Some n =>
      let k := Z.to_nat n in
      if (1 <=? n)%Z && (n <=? 16)%Z && (k <=? length data)%nat
         && forallb (Z.eqb n) (drop (length data - k) data)
      then Some (take (length data - k) data)
      else None
  end.

Fixpoint split_blocks (fuel : nat) (data : bytes) : list bytes :=
  match fuel, data with
  | S fuel', _ :: _ => take 16 data :: split_blocks fuel' (drop 16 data)
  | _, _ => []
  end.

Definition blocks_of (data : bytes) : list bytes := split_blocks (length data) data.


Fixpoint cbc_encrypt_blocks (key prev : bytes) (blocks : list bytes) : list bytes :=
  match blocks with
  | [] => []
  | p :: blocks' =>
      let c := block_encrypt key (xor_block p prev) in
      c :: cbc_encrypt_blocks key c blocks'
  end.

Fixpoint cbc_decrypt_blocks (key prev : bytes) (blocks : list bytes) : list bytes :=
  match blocks with
  | [] => []
  | c :: blocks' =>
      xor_block (block_decrypt key c) prev :: cbc_decrypt_blocks key c blocks'
  end.

Definition bad_parameters (key iv : bytes) : option value :=
  if negb (length key =? 32)%nat then Some (VStr "Invalid key length")
  else if negb (length iv =? 16)%nat then Some (VStr "Invalid initialization vector")
  else None.

(** [createCipheriv('aes-256-cbc', key, iv)], [update(data)], [final()]. *)
Definition encrypt (key iv data : bytes) : result bytes :=
  match bad_parameters key iv with
  | Some e => Err e
  | None => Ok (concat (cbc_encrypt_blocks key iv (blocks_of (pkcs7_pad data))))
  end.

(** [createDecipheriv('aes-256-cbc', key, iv)], [update(data)], [final()]. *)
Definition decrypt (key iv data : bytes) : result bytes :=
  match bad_parameters key iv with
  | Some e => Err e
  | None =>
      if (length data =? 0)%nat || negb (length data mod 16 =? 0)%nat then
        Err (VStr "wrong final block length")
      else
        match pkcs7_unpad (concat (cbc_decrypt_blocks key iv (blocks_of data))) with
        | Some plain => Ok plain
        | None => Err (VStr "bad decrypt")
        end
  end.

End Mode.

End AesCbc.

(** ** A small runtime to run the client on

    Parsers by table, a catalog by table, a signer that only records what it
    was given, a loader that returns the credentials of the configuration,
    the 8-bit identity as text codec, a base64 decoder, and the mode above
    over a stand-in for the block cipher (exclusive or with the first half
    of the key) and a stand-in for gzip. *)

Module Example.

Definition b64_value (c : ascii) : option Z :=
  let n := Z.of_nat (nat_of_ascii c) in
  if (65 <=? n)%Z && (n <=? 90)%Z then Some (n - 65)
  else if (97 <=? n)%Z && (n <=? 122)%Z then Some (n - 71)
  else if (48 <=? n)%Z && (n <=? 57)%Z then Some (n + 4)
  else if (n =? 43)%Z then Some 62
  else if (n =? 47)%Z then Some 63
  else None.

Fixpoint b64_sextets (s : string) : list Z :=
  match s with
  | EmptyString => []
  | String c s' =>
      match b64_value c with
      | Some v => v :: b64_sextets s'
      | None => []
      end
  end.

Fixpoint b64_bytes (l : list Z) : bytes :=
  match l with
  | a :: b :: c :: d :: l' =>
      (a * 4 + b / 16) :: ((b mod 16) * 16 + c / 4) :: ((c mod 4) * 64 + d) :: b64_bytes l'
  | [a; b; c] => [a * 4 + b / 16; (b mod 16) * 16 + c / 4]
  | [a; b] => [a * 4 + b / 16]
  | _ => []
  end.

Definition base64 (s : string) : bytes := b64_bytes (b64_sextets s).

Definition text_encode (s : string) : bytes :=
  map (fun c => Z.of_nat (nat_of_ascii c)) (list_ascii_of_string s).

Definition text_decode (b : bytes) : string :=
  string_of_list_ascii (map (fun z => ascii_of_nat (Z.to_nat z)) b).

Definition stand_in_block (key block : bytes) : bytes :=
  AesCbc.xor_block block (take 16 key).

(** A gzip member is recognised by its magic number only; what follows it
    stands for the data. *)
Definition stand_in_gunzip (b : bytes) : result bytes :=
  match b with
  | 31 :: 139 :: rest => Ok rest
  | _ => Err (VStr "incorrect header check")
  end.

Fixpoint lookup_entry {A} (k : string) (l : list (string * A)) : option A :=
  match l with
  | [] => None
  | (k', a) :: l' => if String.eqb k k' then Some a else lookup_entry k l'
  end.

Definition sign_api (region : option string) (sandbox : bool) (token role_credentials : value)
    (req_params : request_params) : http_request :=
  {| rq_method := method req_params;
     rq_url := VStr ("https://sellingpartnerapi-" +:+ default "" region +:+ ".amazon.com");
     rq_headers := [("x-amz-access-token", token);
                    ("x-amz-security-token", default VUndef (prop role_credentials "security_token"))];
     rq_body := NoBody |}.

Definition sign_sts (region : option string) (aws_user : value) : http_request :=
  {| rq_method := Some "POST";
     rq_url := VStr "https://sts.amazonaws.com";
     rq_headers := [("x-amz-user", default VUndef (prop aws_user "id"))];
     rq_body := TextBody "Action=AssumeRole" |}.

(** [JSON.stringify], without the escapes inside strings. *)
Fixpoint stringify (v : value) : string :=
  match v with
  | VUndef | VNull | VNative _ => "null"
  | VBool true => "true"
  | VBool false => "false"
  | VNum n => ToString (VNum n)
  | VStr s => quoted s
  | VArr xs => "[" +:+ join "," (map stringify xs) +:+ "]"
  | VObj fs =>
      "{" +:+ join ","
                ((fix members (l : list (string * value)) : list string :=
                    match l with
                    | [] => []
                    | (_, VUndef) :: l' | (_, VNative _) :: l' => members l'
                    | (k, x) :: l' => (quoted k +:+ ":" +:+ stringify x) :: members l'
                    end) fs)
      +:+ "}"
  end.

Definition runtime (json xml : list (string * value)) (files : list (string * string))
    (catalog : list (string * (request_params -> request_params))) : Runtime :=
  {| JSON_parse := fun s => lookup_entry s json;
     JSON_stringify := stringify;
     xml_parse := fun s => lookup_entry s xml;
     csv_fromString := fun _ => None;
     iconv_decode := fun _ _ => Err (VStr "Encoding not recognized");
     utf8_decode := text_decode;
     utf8_encode := text_encode;
     base64_decode := base64;
     aes_256_cbc_encrypt := AesCbc.encrypt stand_in_block;
     aes_256_cbc_decrypt := AesCbc.decrypt stand_in_block;
     gunzip := stand_in_gunzip;
     fs_readFile := fun path _ =>
       match lookup_entry path files with
       | Some text => Ok text
       | None => Err (VStr "ENOENT")
       end;
     fs_writeFile := fun _ _ => None;
     operations := fun name => lookup_entry name catalog;
     signAPIRequest := sign_api;
     signRoleCredentialsRequest := sign_sts;
     credentials_load := fun c _ => inr c |}.

(** A catalog entry in the style of the package: it adds the method and the
    restore rate to what the caller gave. *)
Definition getOrders (req_params : request_params) : request_params :=
  {| operation := operation req_params;
     method := Some "GET";
     scope := None;
     restore_rate := 60;
     params := params req_params |}.

Definition catalog : list (string * (request_params -> request_params)) :=
  [("getOrders", getOrders)].

Definition app_credentials : value :=
  VObj [("app_client", VObj [("id", VStr "client-id"); ("secret", VStr "client-secret")]);
        ("aws_user", VObj [("id", VStr "aws-id"); ("secret", VStr "aws-secret");
                           ("role", VStr "role-arn")])].

Definition default_options : options :=
  {| auto_request_tokens := true;
     auto_request_throttled := true;
     use_sandbox := false;
     only_grantless_operations := false;
     credentials_path := None |}.

(** A session that holds both a token and role credentials. *)
Definition ready_session : session :=
  {| _region := Some "eu";
     _refresh_token := VStr "refresh-token";
     _access_token := VStr "stale-token";
     _role_credentials :=
       VObj [("id", VStr "role-id"); ("secret", VStr "role-secret");
             ("security_token", VStr "role-token")];
     _grantless_tokens := ∅;
     _options := default_options;
     _credentials := app_credentials |}.

Definition start (s : session) (replies : list reply) : state :=
  {| sess := s; wld := {| inbox := replies; log := [] |} |}.

Definition json_reply (status : Z) (text : string) : reply :=
  Reply {| statusCode := status; body := text; chunks := []; headers := [] |}.

Definition call_getOrders : request_params :=
  {| operation := Some "getOrders"; method := None; scope := None;
     restore_rate := 0; params := VObj [("query", VObj [("MarketplaceIds", VStr "A1PA6795UKMFR9")])] |}.

(** The bytes 0 to 31 and 0 to 15 in base64. *)
Definition key64 : string := "AAECAwQFBgcICQoLDA0ODxAREhMUFRYXGBkaGxwdHh8=".
Definition iv64 : string := "AAECAwQFBgcICQoLDA0ODw==".

Definition document_url : string := "https://tortuga-prod-eu.s3.amazonaws.com/doc".

(** A descriptor that names another standard and has no URL. *)
Definition des_without_url : value :=
  VObj [("encryptionDetails",
         VObj [("standard", VStr "DES");
               ("initializationVector", VStr iv64);
               ("key", VStr key64)])].

Definition des_with_url : value :=
  VObj [("encryptionDetails",
         VObj [("standard", VStr "DES");
               ("initializationVector", VStr iv64);
               ("key", VStr key64)]);
        ("url", VStr document_url)].

Definition ok_reply : reply :=
  Reply {| statusCode := 200; body := ""; chunks := []; headers := [] |}.

Definition feed_file : string := "/tmp/feed.xml".
Definition feed_text : string := "<feed/>".


Definition text_feed : feed_object :=
  {| content := Some feed_text; file := None; contentType := Some "text/xml; charset=utf-8" |}.

(** The bodies the service answers with, and what they parse to. *)
Definition member (k v : string) : string := quoted k +:+ ":" +:+ v.

Definition body_throttled : string :=
  "{" +:+ member "errors" ("[{" +:+ member "code" (quoted "QuotaExceeded") +:+ "}]") +:+ "}".
Definition parsed_throttled : value :=
  VObj [("errors", VArr [VObj [("code", VStr "QuotaExceeded")]])].

Definition body_ok : string :=
  "{" +:+ member "payload" ("{" +:+ member "ok" "true" +:+ "}") +:+ "}".
Definition parsed_ok : value := VObj [("payload", VObj [("ok", VBool true)])].

Definition expired_error : value :=
  VObj [("code", VStr "Unauthorized");
        ("message", VStr "Access to requested resource is denied.");
        ("details", VStr "The access token you provided has expired.")].
Definition body_expired : string :=
  "{" +:+ member "errors"
            ("[{" +:+ member "code" (quoted "Unauthorized") +:+ ","
             +:+ member "message" (quoted "Access to requested resource is denied.") +:+ ","
             +:+ member "details" (quoted "The access token you provided has expired.")
             +:+ "}]") +:+ "}".
Definition parsed_expired : value := VObj [("errors", VArr [expired_error])].

(** The same two texts with the fields exchanged. *)
Definition denied_error : value :=
  VObj [("code", VStr "Unauthorized");
        ("message", VStr "The access token you provided has expired.");
        ("details", VStr "Access to requested resource is denied.")].
Definition body_denied : string :=
  "{" +:+ member "errors"
            ("[{" +:+ member "code" (quoted "Unauthorized") +:+ ","
             +:+ member "message" (quoted "The access token you provided has expired.")
             +:+ ","
             +:+ member "details" (quoted "Access to requested resource is denied.")
             +:+ "}]") +:+ "}".
Definition parsed_denied : value := VObj [("errors", VArr [denied_error])].

Definition body_token : string :=
  "{" +:+ member "access_token" (quoted "fresh-token") +:+ ","
  +:+ member "token_type" (quoted "bearer") +:+ ","
  +:+ member "expires_in" "3600" +:+ "}".
Definition parsed_token : value :=
  VObj [("access_token", VStr "fresh-token"); ("token_type", VStr "bearer");
        ("expires_in", VNum 3600)].

Definition body_invalid_grant : string :=
  "{" +:+ member "error" (quoted "invalid_grant") +:+ ","
  +:+ member "error_description" (quoted "The request has an invalid grant parameter")
  +:+ "}".
Definition parsed_invalid_grant : value :=
  VObj [("error", VStr "invalid_grant");
        ("error_description", VStr "The request has an invalid grant parameter")].

Definition paged_pagination : value := VObj [("nextToken", VStr "page-2")].
Definition paged_payload : value :=
  VObj [("nextToken", VStr "from-payload"); ("items", VArr [])].
Definition body_paged : string :=
  "{" +:+ member "pagination" ("{" +:+ member "nextToken" (quoted "page-2") +:+ "}") +:+ ","
  +:+ member "payload"
        ("{" +:+ member "nextToken" (quoted "from-payload") +:+ ","
         +:+ member "items" "[]" +:+ "}") +:+ "}".
Definition parsed_paged : value :=
  VObj [("pagination", paged_pagination); ("payload", paged_payload)].

Definition api_runtime : Runtime :=
  runtime
    [(body_throttled, parsed_throttled); (body_ok, parsed_ok);
     (body_expired, parsed_expired); (body_token, parsed_token);
     (body_invalid_grant, parsed_invalid_grant); (body_paged, parsed_paged);
     (body_denied, parsed_denied)]
    [] [(feed_file, feed_text)] catalog.

Definition throttled_start : state :=
  start ready_session [json_reply 429 body_throttled; json_reply 200 body_ok].



(** A session with auto-refresh and no access token, and a token endpoint
    that refuses the grant. *)
Definition refused_start : state :=
  start (set_access_token VUndef ready_session) [json_reply 400 body_invalid_grant].



Definition feed_details : value := transfer_details document_url key64 iv64 None.

(** A grantless operation and an operation that deletes. *)
Definition getSubscription (req_params : request_params) : request_params :=
  {| operation := operation req_params;
     method := Some "GET";
     scope := Some "sellingpartnerapi::notifications";
     restore_rate := 1;
     params := params req_params |}.

Definition deleteSubscriptionById (req_params : request_params) : request_params :=
  {| operation := operation req_params;
     method := Some "DELETE";
     scope := Some "sellingpartnerapi::notifications";
     restore_rate := 1;
     params := params req_params |}.

Definition notifications_runtime : Runtime :=
  runtime [(body_token, parsed_token); (body_ok, parsed_ok)] [] []
    [("getSubscription", getSubscription);
     ("deleteSubscriptionById", deleteSubscriptionById)].

Definition call (name : string) : request_params :=
  {| operation := Some name; method := None; scope := None;
     restore_rate := 0; params := VUndef |}.

(** More of the service: configurations, sessions with other options,
    descriptors, and the answers of the storage service, of the
    role-credentials endpoint and of the API in case of errors. *)

Definition eu_config : config_object :=
  {| cfg_region := Some "eu";
     cfg_refresh_token := VStr "refresh-token";
     cfg_access_token := VUndef;
     cfg_role_credentials := VUndef;
     cfg_options := None;
     cfg_credentials := app_credentials |}.

Definition no_refresh_token_config : config_object :=
  {| cfg_region := Some "eu";
     cfg_refresh_token := VUndef;
     cfg_access_token := VUndef;
     cfg_role_credentials := VUndef;
     cfg_options := None;
     cfg_credentials := app_credentials |}.

Definition with_options (o : options) (s : session) : session :=
  {| _region := _region s; _refresh_token := _refresh_token s;
     _access_token := _access_token s;
     _role_credentials := _role_credentials s;
     _grantless_tokens := _grantless_tokens s;
     _options := o; _credentials := _credentials s |}.


Definition sandbox_options : options :=
  {| auto_request_tokens := true;
     auto_request_throttled := true;
     use_sandbox := true;
     only_grantless_operations := false;
     credentials_path := None |}.

Definition grantless_options : options :=
  {| auto_request_tokens := true;
     auto_request_throttled := true;
     use_sandbox := false;
     only_grantless_operations := true;
     credentials_path := None |}.

(** A session that holds neither a token nor role credentials. *)
Definition fresh_session : session :=
  set_role_credentials VUndef (set_access_token VUndef ready_session).

(** What the client sends to the token endpoint for the refresh-token grant
    and for the grant of the notifications scope. *)
Definition refresh_grant : value :=
  VObj [("client_id", VStr "client-id"); ("client_secret", VStr "client-secret");
        ("grant_type", VStr "refresh_token"); ("refresh_token", VStr "refresh-token")].

Definition notifications_grant : value :=
  VObj [("client_id", VStr "client-id"); ("client_secret", VStr "client-secret");
        ("grant_type", VStr "client_credentials");
        ("scope", VStr "sellingpartnerapi::notifications")].

Definition zip_details : value := transfer_details document_url key64 iv64 (Some "ZIP").

(** A descriptor without encryption details. *)
Definition url_only_details : value := VObj [("url", VStr document_url)].

Definition body_access_denied : string :=
  "<Error><Code>AccessDenied</Code><Message>Access Denied</Message></Error>".
Definition parsed_access_denied : value :=
  VObj [("Error", VObj [("Code", VStr "AccessDenied"); ("Message", VStr "Access Denied")])].

Definition denied_reply : reply :=
  Reply {| statusCode := 403; body := body_access_denied; chunks := []; headers := [] |}.

Definition body_assume_role : string :=
  "<AssumeRoleResponse><AssumeRoleResult><Credentials><AccessKeyId>ASIAEXAMPLE</AccessKeyId><SecretAccessKey>sts-secret</SecretAccessKey><SessionToken>sts-session</SessionToken></Credentials></AssumeRoleResult></AssumeRoleResponse>".
Definition sts_credentials : value :=
  VObj [("AccessKeyId", VStr "ASIAEXAMPLE"); ("SecretAccessKey", VStr "sts-secret");
        ("SessionToken", VStr "sts-session")].
Definition parsed_assume_role : value :=
  VObj [("AssumeRoleResponse",
         VObj [("AssumeRoleResult", VObj [("Credentials", sts_credentials)])])].

(** The role credentials that the client makes of them. *)
Definition sts_role_credentials : value :=
  VObj [("id", VStr "ASIAEXAMPLE"); ("secret", VStr "sts-secret");
        ("security_token", VStr "sts-session")].

Definition internal_failure_error : value := VObj [("code", VStr "InternalFailure")].
Definition body_internal_failure : string :=
  "{" +:+ member "errors" ("[{" +:+ member "code" (quoted "InternalFailure") +:+ "}]") +:+ "}".
Definition parsed_internal_failure : value :=
  VObj [("errors", VArr [internal_failure_error])].

Definition invalid_input_error : value :=
  VObj [("code", VStr "InvalidInput"); ("message", VStr "Invalid marketplace")].
Definition body_invalid_input : string :=
  "{" +:+ member "errors"
            ("[{" +:+ member "code" (quoted "InvalidInput") +:+ ","
             +:+ member "message" (quoted "Invalid marketplace") +:+ "}]") +:+ "}".
Definition parsed_invalid_input : value := VObj [("errors", VArr [invalid_input_error])].

Definition security_expired_error : value :=
  VObj [("code", VStr "Unauthorized");
        ("message", VStr "The security token included in the request is expired");
        ("details", VStr "")].
Definition body_security_expired : string :=
  "{" +:+ member "errors"
            ("[{" +:+ member "code" (quoted "Unauthorized") +:+ ","
             +:+ member "message"
                   (quoted "The security token included in the request is expired")
             +:+ "," +:+ member "details" (quoted "") +:+ "}]") +:+ "}".
Definition parsed_security_expired : value :=
  VObj [("errors", VArr [security_expired_error])].

(** A body without payload and without errors. *)
Definition body_listing : string := "{" +:+ member "orders" "[]" +:+ "}".
Definition parsed_listing : value := VObj [("orders", VArr [])].

(** An answer that is neither JSON nor XML. *)
Definition body_gateway : string := "502 Bad Gateway".

Definition gateway_reply : reply :=
  Reply {| statusCode := 502; body := body_gateway; chunks := []; headers := [] |}.

(** A report, and the bytes the storage service holds for it. *)
Definition report_text : string := "<report><id>1</id></report>".
Definition parsed_report : value := VObj [("report", VObj [("id", VNum 1)])].

Definition sealed (plain : bytes) : bytes :=
  match AesCbc.encrypt stand_in_block (base64 key64) (base64 iv64) plain with
  | Ok ciphertext => ciphertext
  | Err _ => []
  end.

Definition report_reply (content_type : string) : reply :=
  Reply {| statusCode := 200; body := ""; chunks := [sealed (text_encode report_text)];
           headers := [("content-type", content_type)] |}.

Definition report_file : string := "/tmp/report.xml".

Definition service_runtime : Runtime :=
  runtime
    [(body_throttled, parsed_throttled); (body_ok, parsed_ok);
     (body_token, parsed_token); (body_invalid_grant, parsed_invalid_grant);
     (body_internal_failure, parsed_internal_failure);
     (body_invalid_input, parsed_invalid_input);
     (body_security_expired, parsed_security_expired);
     (body_listing, parsed_listing)]
    [(body_access_denied, parsed_access_denied); (body_assume_role, parsed_assume_role);
     (report_text, parsed_report)]
    [(feed_file, feed_text)]
    [("getOrders", getOrders); ("getSubscription", getSubscription);
     ("deleteSubscriptionById", deleteSubscriptionById)].

End Example.

(** ** The vocabulary of the properties *)

Module Scenario.

Section Scenario.

Context (R : Runtime).

(** The body of an API response as [callAPI] parses it. *)
Definition parses (res : response) (json_res : value) : Prop :=
  JSON_parse R (Re.strip_newlines (body res)) = Some json_res.

(** The parsed body carries an error list, and [error] is its first entry. *)
Definition first_error (res : response) (error : value) : Prop :=
  exists json_res errors,
    parses res json_res
    /\ prop json_res "errors" = Some errors /\ truthy errors = true
    /\ index errors 0 = Some error.

(** [res] is not the answer to a DELETE without content, and its body has
    no error list. *)
Definition succeeds (req_params : request_params) (res : response) (json_res : value)
  : Prop :=
  (statusCode res =? 204)%Z && bool_decide (method req_params = Some "DELETE") = false
  /\ parses res json_res
  /\ exists errors, prop json_res "errors" = Some errors /\ truthy errors = false.

(** A success whose body has a payload section and no pagination section. *)
Definition carries_payload (req_params : request_params) (res : response) (payload : value)
  : Prop :=
  exists json_res pagination,
    succeeds req_params res json_res
    /\ prop json_res "pagination" = Some pagination /\ truthy pagination = false
    /\ prop json_res "payload" = Some payload /\ truthy payload = true.

(** The answer of the token endpoint grants the token [tok]. *)
Definition grants (res : response) (tok : value) : Prop :=
  exists json_res,
    JSON_parse R (body res) = Some json_res
    /\ prop json_res "access_token" = Some tok /\ truthy tok = true.

(** One successful run of a refresh operation takes the session [s] to [s']. *)
Definition refresh_step (s s' : session) : Prop :=
  exists w w',
    (exists scope,
        refreshAccessToken R scope {| sess := s; wld := w |}
        = (Return tt, {| sess := s'; wld := w' |}))
    \/ refreshRoleCredentials R {| sess := s; wld := w |}
       = (Return tt, {| sess := s'; wld := w' |}).



(** States whose sessions are related by successful runs of the refresh
    operations. *)
Definition refreshed (st st' : state) : Prop := rtc refresh_step (sess st) (sess st').

(** The answer to the request for role credentials delivers [credentials]. *)
Definition delivers (res : response) (credentials : value) : Prop :=
  exists json_res a b,
    xml_parse R (body res) = Some json_res
    /\ prop json_res "AssumeRoleResponse" = Some a
    /\ prop a "AssumeRoleResult" = Some b
    /\ prop b "Credentials" = Some credentials /\ truthy credentials = true.

End Scenario.

(** A computation preserves [P] when [P] relates every state to the state
    the computation leaves, however it ends. *)
Definition preserves {A} (P : state -> state -> Prop) (m : M A) : Prop :=
  forall st, P st (m st).2.

Definition same_session (st st' : state) : Prop := sess st' = sess st.

(** A computation writes the session as [W] says when it returns, and not
    at all when it does not return. *)
Definition returns_with {A} (W : session -> session -> Prop) (m : M A) : Prop :=
  forall st,
    match m st with
    | (Return _, st') => W (sess st) (sess st')
    | (_, st') => sess st' = sess st
    end.

Definition log_grows (st st' : state) : Prop :=
  exists l, log (wld st') = log (wld st) ++ l.


(** The request that [refreshAccessToken] sends (line 249), for a body. *)
Definition token_request (request_body : string) : http_request :=
  {| rq_method := Some "POST";
     rq_url := VStr "https://api.amazon.com/auth/o2/token";
     rq_headers := [("Content-Type", VStr "application/json")];
     rq_body := TextBody request_body |}.

(** The state after a request has gone out and its answer has come in. *)
Definition answered (rq : http_request) (rest : list reply) (st : state) : state :=
  {| sess := sess st;
     wld := {| inbox := rest; log := log (wld st) ++ [EvRequest rq] |} |}.

(** What a computation adds to the log are events that satisfy [Q]. *)
Definition log_adds (Q : event -> Prop) (st st' : state) : Prop :=
  exists l, log (wld st') = log (wld st) ++ l /\ Forall Q l.

(** An event other than the reading of a file. *)
Definition reads_no_file (ev : event) : Prop :=
  match ev with EvReadFile _ _ => False | _ => True end.

(** The role credentials, once they are present, stay what they are. *)
Definition keeps_role_credentials (st st' : state) : Prop :=
  truthy (_role_credentials (sess st)) = true ->
  _role_credentials (sess st') = _role_credentials (sess st).

(** No response is put back: the responses to come only get fewer. *)
Definition inbox_shrinks (st st' : state) : Prop :=
  (length (inbox (wld st')) <= length (inbox (wld st)))%nat.

(** A computation that, started with fewer than [n] responses to come, does
    not use up the bound on the retries and leaves fewer than [n]
    responses. *)
Definition ends_within (n : nat) {A} (m : M A) : Prop :=
  forall st,
    (length (inbox (wld st)) < n)%nat ->
    (m st).1 <> OutOfFuel /\ (length (inbox (wld (m st).2)) < n)%nat.

End Scenario.
Export Scenario.

(** * Properties *)

(** Running a computation of the monad by unfolding its combinators. *)
Ltac munfold :=
  unfold and_prop, get_prop, get_index, lift_result, get_session, update_session, emit,
    mbind, mret, M_bind, M_ret, bind, ret, throw, not_modelled, out_of_fuel in *.

Section Monad_laws.

Context {A B : Type}.

Lemma bind_Return (m : M A) (k : A -> M B) st a st' :
  m st = (Return a, st') -> (m ≫= k) st = k a st'.
Proof. intros H. munfold. by rewrite H. Qed.

End Monad_laws.

Section Validation.

Context (R : Runtime).

Lemma callAPI_S fuel rp :
  callAPI R (S fuel) rp =
  (callAPI_send R rp ≫= fun '(expanded, res) => callAPI_interpret R (callAPI R fuel) expanded res).
Proof. reflexivity. Qed.


(** The loader runs first (line 57): what it throws is what the constructor
    throws, whatever the region. *)
Lemma constructor_loader_error config e :
  credentials_load R (cfg_credentials config)
    (cfg_options config ≫= cfg_credentials_path) = inl e ->
  constructor R config = Throw e.
Proof. intros Hload. unfold constructor. simpl. by rewrite Hload. Qed.


End Validation.

Section Transfer_validation.

Context (R : Runtime).

(** The validation of the descriptor reads and writes nothing. *)
Lemma _validateEncryptionDetails_pure details st :
  (_validateEncryptionDetails details st).2 = st.
Proof.
  unfold _validateEncryptionDetails. munfold.
  repeat first
    [ reflexivity
    | match goal with
      | |- context [match prop ?v ?k with _ => _ end] => destruct (prop v k)
      | |- context [if ?b then _ else _] => destruct b
      end; simpl ].
Qed.

Lemma prop_truthy_base v k x :
  prop v k = Some x -> truthy x = true -> truthy v = true.
Proof. destruct v; simpl; intros [= <-]; try discriminate; done. Qed.

Lemma is_str_false v lit : v <> VStr lit -> is_str v lit = false.
Proof.
  destruct v; simpl; try done. intros H.
  destruct (String.eqb_spec s lit) as [-> | _]; [contradiction | done].
Qed.

(** C6, amended.  For a descriptor that has a URL and encryption details
    whose standard is not "AES", [download] throws
    UNKNOWN_ENCRYPTION_STANDARD and leaves the state as it found it: no
    request has gone out. *)
Theorem download_rejects_encryption_standard details options st enc url standard :
  prop details "encryptionDetails" = Some enc -> truthy enc = true ->
  prop details "url" = Some url -> truthy url = true ->
  prop enc "standard" = Some standard -> standard <> VStr "AES" ->
  download R details options st =
  (Throw (custom "UNKNOWN_ENCRYPTION_STANDARD"
            (VStr ("Cannot decrypt " +:+ ToString standard +:+ ", expecting AES"))), st).
Proof.
  intros Henc Tenc Hurl Turl Hstd Hne.
  pose proof (prop_truthy_base _ _ _ Henc Tenc) as Td.
  unfold download, _validateEncryptionDetails. munfold.
  pose proof (is_str_false _ _ Hne) as Hs.
  repeat (first [rewrite Td | rewrite Henc | rewrite Tenc | rewrite Hurl
                | rewrite Turl | rewrite Hstd | rewrite Hs]; simpl).
  reflexivity.
Qed.


End Transfer_validation.

(** ** What a computation leaves alone

    [preserves P m] is proved along the structure of [m]: it holds of the
    primitives that respect [P] and is closed under sequencing and case
    distinction, for any reflexive and transitive [P]. *)

Create HintDb frame.

Section Frames.

Context (R : Runtime) (P : state -> state -> Prop).
Hypothesis P_refl : forall st, P st st.
Hypothesis P_trans : forall a b c, P a b -> P b c -> P a c.

Lemma preserves_pure {A} (m : M A) : (forall st, (m st).2 = st) -> preserves P m.
Proof. intros H st. rewrite H. apply P_refl. Qed.

Lemma preserves_ret {A} (a : A) : preserves P (mret a).
Proof. by apply preserves_pure. Qed.

Lemma preserves_throw {A} e : preserves P (@throw A e).
Proof. by apply preserves_pure. Qed.

Lemma preserves_not_modelled {A} : preserves P (@not_modelled A).
Proof. by apply preserves_pure. Qed.

Lemma preserves_out_of_fuel {A} : preserves P (@out_of_fuel A).
Proof. by apply preserves_pure. Qed.

Lemma preserves_get_session : preserves P get_session.
Proof. by apply preserves_pure. Qed.

Lemma preserves_get_prop v k : preserves P (get_prop v k).
Proof. apply preserves_pure. intros st. unfold get_prop. by destruct (prop v k). Qed.

Lemma preserves_get_index v i : preserves P (get_index v i).
Proof. apply preserves_pure. intros st. unfold get_index. by destruct (index v i). Qed.

Lemma preserves_and_prop v k : preserves P (and_prop v k).
Proof.
  unfold and_prop. destruct (truthy v); [apply preserves_get_prop | apply preserves_ret].
Qed.

Lemma preserves_lift_result {A} (r : result A) : preserves P (lift_result r).
Proof. apply preserves_pure. intros st. by destruct r. Qed.

Lemma preserves_bind {A B} (m : M A) (k : A -> M B) :
  preserves P m -> (forall a, preserves P (k a)) -> preserves P (m ≫= k).
Proof.
  intros Hm Hk st. specialize (Hm st). munfold.
  destruct (m st) as [[a| | | |] st1]; simpl in *; try done.
  eapply P_trans; [exact Hm | apply Hk].
Qed.

#[local] Hint Resolve preserves_ret preserves_throw preserves_not_modelled
  preserves_out_of_fuel preserves_get_session preserves_get_prop preserves_get_index
  preserves_and_prop preserves_lift_result : frame.

Ltac frame_step :=
  first
    [ solve [auto 1 with frame nocore]
    | apply preserves_bind; [| intros]
    | match goal with
      | |- preserves _ (match ?x with _ => _ end) => destruct x
      | |- preserves _ (if ?b then _ else _) => destruct b
      end ].
Ltac frame := repeat frame_step.

(** The validations and the construction of the token request only read. *)

Lemma preserves__validateEncryptionDetails details :
  preserves P (_validateEncryptionDetails details).
Proof. unfold _validateEncryptionDetails. frame. Qed.

Lemma preserves__validateUpOrDownloadSuccess res request_type :
  preserves P (_validateUpOrDownloadSuccess R res request_type).
Proof. unfold _validateUpOrDownloadSuccess. frame. Qed.

Lemma preserves__constructRefreshAccessTokenBody scope :
  preserves P (_constructRefreshAccessTokenBody R scope).
Proof. unfold _constructRefreshAccessTokenBody. frame. Qed.

Lemma preserves__validateOperation operation :
  preserves P (_validateOperation R operation).
Proof. unfold _validateOperation. frame. Qed.

Lemma preserves__validateOperationAllowance scope :
  preserves P (_validateOperationAllowance scope).
Proof. unfold _validateOperationAllowance. frame. Qed.

Lemma preserves_Buffer_from_base64 v : preserves P (Buffer_from_base64 R v).
Proof. unfold Buffer_from_base64. frame. Qed.

#[local] Hint Resolve preserves__validateEncryptionDetails
  preserves__validateUpOrDownloadSuccess preserves__constructRefreshAccessTokenBody
  preserves__validateOperation preserves__validateOperationAllowance
  preserves_Buffer_from_base64 : frame.

(** The transfers talk to the world and never write the session. *)

Hypothesis P_request : forall rq, preserves P (request rq).
Hypothesis P_emit : forall ev, preserves P (emit ev).

#[local] Hint Resolve P_request P_emit : frame.

Lemma preserves__wait restore_rate : preserves P (_wait restore_rate).
Proof. unfold _wait. frame. Qed.

Lemma preserves__unzip buffer : preserves P (_unzip R buffer).
Proof. unfold _unzip. frame. Qed.

Lemma preserves__readFile file content_type : preserves P (_readFile R file content_type).
Proof. unfold _readFile. frame. Qed.

Lemma preserves__saveFile content json file : preserves P (_saveFile R content json file).
Proof. unfold _saveFile. frame. Qed.

#[local] Hint Resolve preserves__wait preserves__unzip preserves__readFile
  preserves__saveFile : frame.

Lemma preserves_upload_content details feed feed_content :
  preserves P (upload_content R details feed feed_content).
Proof. unfold upload_content. frame. Qed.

#[local] Hint Resolve preserves_upload_content : frame.

Lemma preserves_upload details feed : preserves P (upload R details feed).
Proof. unfold upload. frame. Qed.

Lemma preserves_download details options : preserves P (download R details options).
Proof. unfold download. frame. Qed.

(** The refresh operations besides write the session once. *)

Lemma preserves_refreshAccessToken scope :
  (forall f, preserves P (update_session f)) ->
  preserves P (refreshAccessToken R scope).
Proof. intros Hw. unfold refreshAccessToken. frame. Qed.

Lemma preserves_refreshRoleCredentials :
  (forall f, preserves P (update_session f)) ->
  preserves P (refreshRoleCredentials R).
Proof. intros Hw. unfold refreshRoleCredentials. frame. Qed.

(** The first half of [callAPI] changes the state where the validation of
    the token and the role credentials does, and by its one request. *)
Lemma preserves_callAPI_send_with req_params :
  (forall scope, preserves P (_validateAccessTokenAndRoleCredentials R scope)) ->
  preserves P (callAPI_send R req_params).
Proof. intros Hv. unfold callAPI_send. frame. Qed.

(** [callAPI] changes the state through the refresh operations, the timer
    and the transport only. *)

Hypothesis P_refreshAccessToken : forall scope, preserves P (refreshAccessToken R scope).
Hypothesis P_refreshRoleCredentials : preserves P (refreshRoleCredentials R).

#[local] Hint Resolve P_refreshAccessToken P_refreshRoleCredentials : frame.

Lemma preserves__validateAccessTokenAndRoleCredentials scope :
  preserves P (_validateAccessTokenAndRoleCredentials R scope).
Proof. unfold _validateAccessTokenAndRoleCredentials. frame. Qed.

#[local] Hint Resolve preserves__validateAccessTokenAndRoleCredentials : frame.

Lemma preserves_callAPI_send req_params : preserves P (callAPI_send R req_params).
Proof. apply preserves_callAPI_send_with. auto with frame nocore. Qed.

Lemma preserves_callAPI_interpret self req_params res :
  (forall rp, preserves P (self rp)) ->
  preserves P (callAPI_interpret R self req_params res).
Proof. intros Hself. unfold callAPI_interpret. frame. Qed.

Lemma preserves_callAPI fuel req_params : preserves P (callAPI R fuel req_params).
Proof.
  revert req_params. induction fuel as [| fuel IH]; intros req_params; simpl.
  - apply preserves_out_of_fuel.
  - apply preserves_bind; [apply preserves_callAPI_send |].
    intros [expanded res]. by apply preserves_callAPI_interpret.
Qed.

End Frames.

(** ** The session and the token manager *)

Section Token_manager.

Context (R : Runtime).

Lemma same_session_refl st : same_session st st.
Proof. reflexivity. Qed.

Lemma same_session_trans a b c : same_session a b -> same_session b c -> same_session a c.
Proof. unfold same_session. congruence. Qed.

Lemma same_session_request rq : preserves same_session (request rq).
Proof. intros st. unfold request. by destruct (inbox (wld st)) as [| [] ?]. Qed.

Lemma same_session_emit ev : preserves same_session (emit ev).
Proof. by intros st. Qed.




Lemma log_grows_emit ev : preserves log_grows (emit ev).
Proof. intros st. by exists [ev]. Qed.


Lemma _constructRefreshAccessTokenBody_pure scope st :
  (_constructRefreshAccessTokenBody R scope st).2 = st.
Proof.
  apply (preserves__constructRefreshAccessTokenBody R (fun st st' => st' = st));
    [done | congruence].
Qed.

(** [refreshAccessToken] returns only after the token endpoint has granted
    a token, which it stores under the scope or as the access token; in
    every other case it leaves the session as it was. *)
Lemma refreshAccessToken_session scope st :
  match refreshAccessToken R scope st with
  | (Return _, st') =>
      exists res tok,
        head (inbox (wld st)) = Some (Reply res)
        /\ grants R res tok
        /\ sess st' = store_token scope tok (sess st)
  | (_, st') => sess st' = sess st
  end.
Proof.
  unfold refreshAccessToken.
  pose proof (_constructRefreshAccessTokenBody_pure scope st) as Hp.
  munfold. destruct (_constructRefreshAccessTokenBody R scope st) as [r st0].
  simpl in Hp. subst st0. destruct r; try reflexivity.
  unfold request. destruct (inbox (wld st)) as [| [res | reason] rest]; try reflexivity.
  simpl. destruct (JSON_parse R (body res)) as [json_res |] eqn:Hj; try reflexivity.
  destruct (prop json_res "access_token") as [tok |] eqn:Ht; try reflexivity.
  simpl. destruct (truthy tok) eqn:Htok; simpl.
  - exists res, tok. repeat split; try done. by exists json_res.
  - destruct (prop json_res "error") as [e |]; try reflexivity.
    simpl. destruct (truthy e); simpl; [| reflexivity].
    by destruct (prop json_res "error_description").
Qed.

Lemma returns_with_bind {A B} W (m : M A) (k : A -> M B) :
  preserves same_session m -> (forall a, returns_with W (k a)) ->
  returns_with W (m ≫= k).
Proof.
  intros Hm Hk st. specialize (Hm st). unfold same_session in Hm. munfold.
  destruct (m st) as [[a | | | |] st1]; simpl in Hm; try done.
  specialize (Hk a st1). destruct (k a st1) as [[] st2]; by rewrite <- Hm.
Qed.

Lemma returns_with_throw {A} W e : returns_with W (@throw A e).
Proof. by intros st. Qed.

Lemma returns_with_update W f : (forall s, W s (f s)) -> returns_with W (update_session f).
Proof. intros H st. apply H. Qed.

Lemma same_session_get_prop v k : preserves same_session (get_prop v k).
Proof. apply preserves_get_prop, same_session_refl. Qed.

Lemma same_session_and_prop v k : preserves same_session (and_prop v k).
Proof. apply preserves_and_prop, same_session_refl. Qed.

Lemma same_session_get_session : preserves same_session get_session.
Proof. apply preserves_get_session, same_session_refl. Qed.

(** [refreshRoleCredentials] returns only after it has stored an object of
    role credentials, and otherwise leaves the session as it was. *)
Lemma refreshRoleCredentials_returns :
  returns_with
    (fun s s' =>
       exists id secret security_token,
         s' = set_role_credentials
                (VObj [("id", id); ("secret", secret); ("security_token", security_token)])
                s)
    (refreshRoleCredentials R).
Proof.
  unfold refreshRoleCredentials.
  repeat first
    [ apply returns_with_throw
    | apply returns_with_update; intros; by eexists _, _, _
    | apply returns_with_bind;
      [ first [ apply same_session_get_prop | apply same_session_and_prop
              | apply same_session_get_session | apply same_session_request ]
      | intros ]
    | match goal with
      | |- returns_with _ (match ?x with _ => _ end) => destruct x
      | |- returns_with _ (if ?b then _ else _) => destruct b
      end ].
Qed.

Lemma refreshRoleCredentials_session st :
  match refreshRoleCredentials R st with
  | (Return _, st') =>
      exists id secret security_token,
        sess st' =
        set_role_credentials
          (VObj [("id", id); ("secret", secret); ("security_token", security_token)])
          (sess st)
  | (_, st') => sess st' = sess st
  end.
Proof. apply refreshRoleCredentials_returns. Qed.

End Token_manager.

Section Session_frame.

Context (R : Runtime).

Lemma refreshed_refl st : refreshed R st st.
Proof. apply rtc_refl. Qed.

Lemma refreshed_trans a b c : refreshed R a b -> refreshed R b c -> refreshed R a c.
Proof. unfold refreshed. intros. by etrans. Qed.

Lemma same_session_refreshed st st' : same_session st st' -> refreshed R st st'.
Proof. unfold same_session, refreshed. intros ->. apply rtc_refl. Qed.

Lemma refreshed_request rq : preserves (refreshed R) (request rq).
Proof. intros st. apply same_session_refreshed, same_session_request. Qed.

Lemma refreshed_emit ev : preserves (refreshed R) (emit ev).
Proof. intros st. apply same_session_refreshed, same_session_emit. Qed.

Lemma refreshed_refreshAccessToken scope :
  preserves (refreshed R) (refreshAccessToken R scope).
Proof.
  intros st. pose proof (refreshAccessToken_session R scope st) as H.
  destruct (refreshAccessToken R scope st) as [[[] | | | |] st'] eqn:E; simpl;
    try (by apply same_session_refreshed).
  apply rtc_once. exists (wld st), (wld st'). left. exists scope.
  destruct st, st'. exact E.
Qed.

Lemma refreshed_refreshRoleCredentials :
  preserves (refreshed R) (refreshRoleCredentials R).
Proof.
  intros st. pose proof (refreshRoleCredentials_session R st) as H.
  destruct (refreshRoleCredentials R st) as [[[] | | | |] st'] eqn:E; simpl;
    try (by apply same_session_refreshed).
  apply rtc_once. exists (wld st), (wld st'). right.
  destruct st, st'. exact E.
Qed.

(** C8.  The session is written by the two refresh operations and by
    nothing else.  [refreshAccessToken], when it succeeds, stores the granted
    token in one place, the entry of the scope when a scope was given and the
    access token otherwise, and [refreshRoleCredentials], when it succeeds,
    replaces the role credentials; when they fail they leave the session as
    it was.  [download] and [upload] never change the session, and the
    session after [callAPI] (or after the interpretation of a response,
    whatever the retry does) is reached from the session before it by
    successful runs of the two refresh operations. *)
Theorem session_written_only_by_refresh :
  (forall scope st,
      match refreshAccessToken R scope st with
      | (Return _, st') =>
          exists tok,
            sess st' =
            (if truthy_str scope then set_grantless_token (default "" scope) tok (sess st)
             else set_access_token tok (sess st))
      | (_, st') => sess st' = sess st
      end)
  /\ (forall st,
         match refreshRoleCredentials R st with
         | (Return _, st') => exists rc, sess st' = set_role_credentials rc (sess st)
         | (_, st') => sess st' = sess st
         end)
  /\ (forall details options st, sess (download R details options st).2 = sess st)
  /\ (forall details feed st, sess (upload R details feed st).2 = sess st)
  /\ (forall self req_params res st,
         (forall rp st0, rtc (refresh_step R) (sess st0) (sess (self rp st0).2)) ->
         rtc (refresh_step R) (sess st) (sess (callAPI_interpret R self req_params res st).2))
  /\ (forall fuel req_params st,
         rtc (refresh_step R) (sess st) (sess (callAPI R fuel req_params st).2)).
Proof.
  repeat split.
  - intros scope st. pose proof (refreshAccessToken_session R scope st) as H.
    destruct (refreshAccessToken R scope st) as [[] st']; try done.
    destruct H as (res & tok & _ & _ & ->). exists tok.
    unfold store_token. by destruct (truthy_str scope).
  - intros st. pose proof (refreshRoleCredentials_session R st) as H.
    destruct (refreshRoleCredentials R st) as [[] st']; try done.
    destruct H as (id & secret & tok & ->). by eexists.
  - intros details options.
    apply (preserves_download R same_session same_session_refl same_session_trans
             same_session_request same_session_emit).
  - intros details feed.
    apply (preserves_upload R same_session same_session_refl same_session_trans
             same_session_request same_session_emit).
  - intros self req_params res st Hself.
    by apply (preserves_callAPI_interpret R (refreshed R) refreshed_refl refreshed_trans
                refreshed_emit refreshed_refreshAccessToken
                refreshed_refreshRoleCredentials).
  - intros fuel req_params.
    apply (preserves_callAPI R (refreshed R) refreshed_refl refreshed_trans
             refreshed_request refreshed_emit refreshed_refreshAccessToken
             refreshed_refreshRoleCredentials).
Qed.

End Session_frame.

Section Ensure_auth.

Context (R : Runtime).

Lemma _tokenExists_store_token scope tok this :
  truthy tok = true -> _tokenExists (store_token scope tok this) scope = true.
Proof.
  intros Ht. unfold _tokenExists, store_token, grantless_token.
  destruct (truthy_str scope); simpl.
  - rewrite lookup_insert_eq. simpl. by rewrite Ht, orb_true_r.
  - by rewrite Ht.
Qed.

Lemma _tokenExists_set_role_credentials rc this scope :
  _tokenExists (set_role_credentials rc this) scope = _tokenExists this scope.
Proof. reflexivity. Qed.

Lemma _role_credentials_store_token scope tok this :
  _role_credentials (store_token scope tok this) = _role_credentials this.
Proof. unfold store_token. by destruct (truthy_str scope). Qed.

(** With auto-refresh the validation is the two refreshes, each when its
    subject is missing; the final check adds nothing. *)
Lemma validation_with_auto_refresh scope st :
  auto_request_tokens (_options (sess st)) = true ->
  _validateAccessTokenAndRoleCredentials R scope st =
  ((if _tokenExists (sess st) scope then mret tt else refreshAccessToken R scope)
     ≫= fun _ =>
          if truthy (_role_credentials (sess st)) then mret tt
          else refreshRoleCredentials R) st.
Proof.
  intros Hauto. unfold _validateAccessTokenAndRoleCredentials. munfold.
  rewrite Hauto.
  destruct (_tokenExists (sess st) scope) eqn:Htok; simpl.
  - destruct (truthy (_role_credentials (sess st))) eqn:Hrc; simpl.
    + by rewrite Htok, Hrc.
    + pose proof (refreshRoleCredentials_session R st) as H.
      destruct (refreshRoleCredentials R st) as [[[] | | | |] st2]; try done.
      destruct H as (id & secret & tok & Hs). rewrite Hs.
      by rewrite _tokenExists_set_role_credentials, Htok.
  - pose proof (refreshAccessToken_session R scope st) as H.
    destruct (refreshAccessToken R scope st) as [[[] | | | |] st1]; try done.
    destruct H as (res & tok & _ & (j & _ & _ & Ht) & Hs).
    rewrite Hs, _role_credentials_store_token.
    destruct (truthy (_role_credentials (sess st))) eqn:Hrc; simpl.
    + rewrite Hs, _role_credentials_store_token, Hrc.
      by rewrite _tokenExists_store_token.
    + pose proof (refreshRoleCredentials_session R st1) as H.
      destruct (refreshRoleCredentials R st1) as [[[] | | | |] st2]; try done.
      destruct H as (id & secret & tok' & Hs'). rewrite Hs', Hs.
      by rewrite _tokenExists_set_role_credentials, _tokenExists_store_token.
Qed.


End Ensure_auth.

(** ** Object.assign *)

Section Assign.






End Assign.

(** ** The orchestrator *)

Section Orchestrator.

Context (R : Runtime).

Lemma callAPI_interpret_payload self req_params res payload st :
  carries_payload R req_params res payload ->
  callAPI_interpret R self req_params res st = (Return payload, st).
Proof.
  intros (json_res & pagination & (Hd & Hp & errors & He & Te) & Hpg & Tpg & Hpl & Tpl).
  unfold callAPI_interpret. rewrite Hd, Hp. munfold.
  rewrite He. simpl. rewrite Te, Hpg. simpl. rewrite Hpl. simpl.
  by rewrite Tpg, Tpl.
Qed.















End Orchestrator.

(** ** The mode of the cipher *)

Section Cbc.

Import AesCbc.

Variable block_encrypt block_decrypt : bytes -> bytes -> bytes.

Hypothesis block_length :
  forall key b, length key = 32%nat -> length b = 16%nat ->
                length (block_encrypt key b) = 16%nat.
Hypothesis block_inverse :
  forall key b, length key = 32%nat -> length b = 16%nat ->
                block_decrypt key (block_encrypt key b) = b.















End Cbc.

(** ** The transfer codec *)

Section Transfer_codec.

Context (R : Runtime).




End Transfer_codec.

(** * Further properties of the client *)

(** ** Running a computation step by step *)

Section Running.

Lemma bind_Return_inv {A B} (m : M A) (k : A -> M B) st b st' :
  (m ≫= k) st = (Return b, st') ->
  exists a st1, m st = (Return a, st1) /\ k a st1 = (Return b, st').
Proof.
  munfold. destruct (m st) as [[a | | | |] st1]; intros H; try discriminate.
  by exists a, st1.
Qed.

Lemma bind_ext {A B} (m : M A) (k k' : A -> M B) st :
  (forall a st', k a st' = k' a st') -> (m ≫= k) st = (m ≫= k') st.
Proof. intros H. munfold. destruct (m st) as [[] ?]; done. Qed.

Lemma bind_assoc {A B C} (m : M A) (k : A -> M B) (k' : B -> M C) st :
  ((m ≫= k) ≫= k') st = (m ≫= fun a => k a ≫= k') st.
Proof. munfold. by destruct (m st) as [[] ?]. Qed.

(** Reading a property of a truthy value does not throw. *)
Lemma prop_truthy v k : truthy v = true -> exists x, prop v k = Some x.
Proof. destruct v; simpl; try done; by eexists. Qed.

Lemma get_prop_Some v k x st : prop v k = Some x -> get_prop v k st = (Return x, st).
Proof. intros H. unfold get_prop. by rewrite H. Qed.

Lemma get_prop_Return_inv v k x st st' :
  get_prop v k st = (Return x, st') -> prop v k = Some x /\ st' = st.
Proof. unfold get_prop. destruct (prop v k); intros [= <- <-]; done. Qed.

Lemma and_prop_Some v k x st :
  prop v k = Some x -> truthy x = true -> and_prop v k st = (Return x, st).
Proof.
  intros H T. unfold and_prop. rewrite (prop_truthy_base _ _ _ H T).
  by apply get_prop_Some.
Qed.

Lemma request_answered rq st res rest :
  inbox (wld st) = Reply res :: rest ->
  request rq st = (Return res, answered rq rest st).
Proof. intros Hin. unfold request. by rewrite Hin. Qed.

End Running.

(** ** The constructor *)

Section Construction.

Context (R : Runtime).

Lemma region_is_valid (region : option string) :
  region ∈ [Some "eu"; Some "na"; Some "fe"] ->
  negb (truthy_str region) || negb (Re.valid_region (default "" region)) = false.
Proof.
  rewrite !elem_of_cons, elem_of_nil.
  intros [-> | [-> | [-> | []]]]; reflexivity.
Qed.

(** X1.  Once the credential loader has returned its bundle and the region is
    valid, a configuration that has no refresh token and does not switch on
    [only_grantless_operations] is refused with NO_REFRESH_TOKEN_PROVIDED. *)
Theorem constructor_requires_refresh_token config bundle :
  credentials_load R (cfg_credentials config)
    (cfg_options config ≫= cfg_credentials_path) = inr bundle ->
  cfg_region config ∈ [Some "eu"; Some "na"; Some "fe"] ->
  truthy (cfg_refresh_token config) = false ->
  cfg_options config ≫= cfg_only_grantless_operations ≠ Some true ->
  exists message,
    constructor R config = Throw (custom "NO_REFRESH_TOKEN_PROVIDED" message).
Proof.
  intros Hload Hregion Hrt Hog. unfold constructor. simpl. rewrite Hload.
  rewrite (region_is_valid _ Hregion), Hrt. simpl.
  destruct (cfg_options config ≫= cfg_only_grantless_operations) as [[] |]; simpl;
    try done; by eexists.
Qed.

(** X2.  Once the credential loader has returned its bundle, with a valid
    region and a refresh token (or with [only_grantless_operations] switched
    on) the constructor returns an instance: its getters give the access token
    and the role credentials of the configuration, it holds the bundle and no
    token of a grantless scope, and the options that the configuration leaves
    out have their defaults: automatic token requests and retries on, sandbox
    and grantless-only off. *)
Theorem constructor_returns config bundle :
  credentials_load R (cfg_credentials config)
    (cfg_options config ≫= cfg_credentials_path) = inr bundle ->
  cfg_region config ∈ [Some "eu"; Some "na"; Some "fe"] ->
  truthy (cfg_refresh_token config) = true
  \/ cfg_options config ≫= cfg_only_grantless_operations = Some true ->
  exists this,
    constructor R config = Return this
    /\ access_token this = cfg_access_token config
    /\ role_credentials this = cfg_role_credentials config
    /\ _tokenExists this None = truthy (cfg_access_token config)
    /\ (forall scope, scope ∈ valid_scopes -> _tokenExists this (Some scope) = false)
    /\ _credentials this = bundle
    /\ (forall o, cfg_options config = Some o ->
          (cfg_auto_request_tokens o = None -> auto_request_tokens (_options this) = true)
          /\ (cfg_auto_request_throttled o = None ->
              auto_request_throttled (_options this) = true)
          /\ (cfg_use_sandbox o = None -> use_sandbox (_options this) = false)
          /\ (cfg_only_grantless_operations o = None ->
              only_grantless_operations (_options this) = false))
    /\ (cfg_options config = None ->
        _options this =
        {| auto_request_tokens := true; auto_request_throttled := true;
           use_sandbox := false; only_grantless_operations := false;
           credentials_path := None |}).
Proof.
  intros Hload Hregion Hrt. unfold constructor. simpl. rewrite Hload.
  rewrite (region_is_valid _ Hregion).
  assert (negb (truthy (cfg_refresh_token config))
          && negb (default false (cfg_options config ≫= cfg_only_grantless_operations))
          = false) as ->.
  { destruct Hrt as [-> | ->]; [done | by rewrite andb_false_r]. }
  eexists. split; [reflexivity |]. simpl.
  split; [done |]. split; [done |]. split; [| split; [| split; [done | split]]].
  - unfold _tokenExists. simpl. by rewrite andb_true_r, orb_false_r.
  - intros scope. unfold valid_scopes. rewrite !elem_of_cons, elem_of_nil.
    intros [-> | [-> | []]]; unfold _tokenExists; simpl; by rewrite andb_false_r.
  - intros o Ho. rewrite Ho. simpl. repeat split; by intros ->.
  - by intros ->.
Qed.

End Construction.

(** ** What the transfers check before they touch the network *)

Section Transfer_checks.

Context (R : Runtime).

Lemma validation_state details st r st' :
  _validateEncryptionDetails details st = (r, st') -> st' = st.
Proof.
  intros H. pose proof (_validateEncryptionDetails_pure details st) as Hp.
  by rewrite H in Hp.
Qed.

Lemma _validateEncryptionDetails_missing details st :
  truthy details = false
  \/ (exists enc, prop details "encryptionDetails" = Some enc /\ truthy enc = false)
  \/ (exists url, prop details "url" = Some url /\ truthy url = false) ->
  _validateEncryptionDetails details st
  = (Throw (custom "DOWNLOAD_INFORMATION_MISSING"
              (VStr "Please provide encryptionDetails and url")), st).
Proof.
  intros H. unfold _validateEncryptionDetails. munfold.
  destruct (truthy details) eqn:Td; simpl; [| done].
  destruct H as [H | [(enc & He & Te) | (url & Hu & Tu)]]; [done | |].
  - by rewrite He, Te.
  - destruct (prop_truthy details "encryptionDetails" Td) as [enc He].
    rewrite He. destruct (truthy enc); simpl; [| done]. by rewrite Hu, Tu.
Qed.

Lemma _validateEncryptionDetails_compression details enc url compression st :
  prop details "encryptionDetails" = Some enc -> truthy enc = true ->
  prop details "url" = Some url -> truthy url = true ->
  prop enc "standard" = Some (VStr "AES") ->
  prop details "compressionAlgorithm" = Some compression -> truthy compression = true ->
  compression <> VStr "GZIP" ->
  _validateEncryptionDetails details st
  = (Throw (custom "UNKNOWN_ZIP_STANDARD"
              (VStr ("Cannot unzip " +:+ ToString compression +:+ ", expecting GZIP"))), st).
Proof.
  intros Henc Tenc Hurl Turl Hstd Hc Tc Hne.
  pose proof (prop_truthy_base _ _ _ Henc Tenc) as Td.
  pose proof (is_str_false _ _ Hne) as Hs.
  unfold _validateEncryptionDetails. munfold.
  repeat (first [rewrite Td | rewrite Henc | rewrite Tenc | rewrite Hurl
                | rewrite Turl | rewrite Hstd | rewrite Hc | rewrite Tc | rewrite Hs]; simpl).
  reflexivity.
Qed.

(** X3.  A descriptor that is missing, or has no encryption details, or has no
    URL, is refused with DOWNLOAD_INFORMATION_MISSING by [download] and, under
    that same code, by [upload]; neither reads, writes or sends anything,
    whatever the options and the feed. *)
Theorem transfer_requires_encryption_details_and_url details options feed st :
  truthy details = false
  \/ (exists enc, prop details "encryptionDetails" = Some enc /\ truthy enc = false)
  \/ (exists url, prop details "url" = Some url /\ truthy url = false) ->
  download R details options st
  = (Throw (custom "DOWNLOAD_INFORMATION_MISSING"
              (VStr "Please provide encryptionDetails and url")), st)
  /\ upload R details feed st
     = (Throw (custom "DOWNLOAD_INFORMATION_MISSING"
                 (VStr "Please provide encryptionDetails and url")), st).
Proof.
  intros H. pose proof (_validateEncryptionDetails_missing details st H) as Hv.
  split; [unfold download | unfold upload]; munfold; by rewrite Hv.
Qed.

(** X4.  A descriptor with a URL and the standard "AES" that declares a
    compression other than "GZIP" is refused with UNKNOWN_ZIP_STANDARD by
    [download] and by [upload], before anything is read, written or sent. *)
Theorem transfer_rejects_compression details enc url compression options feed st :
  prop details "encryptionDetails" = Some enc -> truthy enc = true ->
  prop details "url" = Some url -> truthy url = true ->
  prop enc "standard" = Some (VStr "AES") ->
  prop details "compressionAlgorithm" = Some compression -> truthy compression = true ->
  compression <> VStr "GZIP" ->
  download R details options st
  = (Throw (custom "UNKNOWN_ZIP_STANDARD"
              (VStr ("Cannot unzip " +:+ ToString compression +:+ ", expecting GZIP"))), st)
  /\ upload R details feed st
     = (Throw (custom "UNKNOWN_ZIP_STANDARD"
                 (VStr ("Cannot unzip " +:+ ToString compression +:+ ", expecting GZIP"))),
        st).
Proof.
  intros Henc Tenc Hurl Turl Hstd Hc Tc Hne.
  pose proof (_validateEncryptionDetails_compression details enc url compression st
                Henc Tenc Hurl Turl Hstd Hc Tc Hne) as Hv.
  split; [unfold download | unfold upload]; munfold; by rewrite Hv.
Qed.

(** X5.  Once the descriptor has passed, [upload] checks the feed in this
    order and before it reads the file or sends anything: a feed that is
    absent or has neither content nor file gives NO_FEED_CONTENT_PROVIDED,
    whatever its content type; a feed with content or a file and no content
    type gives NO_FEED_CONTENT_TYPE_PROVIDED. *)
Theorem upload_checks_feed details st :
  (_validateEncryptionDetails details st).1 = Return tt ->
  (exists e, upload R details None st = (Throw e, st)
             /\ exn_code e = VStr "NO_FEED_CONTENT_PROVIDED")
  /\ (forall f,
         truthy_str (content f) = false -> truthy_str (file f) = false ->
         exists e, upload R details (Some f) st = (Throw e, st)
                   /\ exn_code e = VStr "NO_FEED_CONTENT_PROVIDED")
  /\ (forall f,
         truthy_str (content f) = true \/ truthy_str (file f) = true ->
         truthy_str (contentType f) = false ->
         exists e, upload R details (Some f) st = (Throw e, st)
                   /\ exn_code e = VStr "NO_FEED_CONTENT_TYPE_PROVIDED").
Proof.
  intros Hv. destruct (_validateEncryptionDetails details st) as [r st'] eqn:E.
  pose proof (validation_state _ _ _ _ E) as ->. simpl in Hv. subst r.
  split; [| split].
  - exists no_feed_content. split; [| reflexivity].
    unfold upload. munfold. by rewrite E.
  - intros f Hc Hf. exists no_feed_content. split; [| reflexivity].
    unfold upload. munfold. by rewrite E, Hc, Hf.
  - intros f Hcf Hct. eexists. split.
    + unfold upload. munfold. rewrite E, Hct.
      destruct Hcf as [-> | ->]; simpl; [reflexivity | by rewrite andb_false_r].
    + reflexivity.
Qed.

End Transfer_checks.

(** ** The answer of the storage service *)

Section Transfer_response.

Context (R : Runtime).

Lemma _validateUpOrDownloadSuccess_not_200 res request_type st :
  statusCode res <> 200 ->
  exists err,
    _validateUpOrDownloadSuccess R res request_type st = (Throw (CustomError err), st)
    /\ (xml_parse R (body res) = None ->
        err = VObj [("code", VStr (request_type +:+ "_ERROR"));
                    ("message", VStr (body res))])
    /\ (forall json_res error code message,
           xml_parse R (body res) = Some json_res ->
           prop json_res "Error" = Some error -> truthy error = true ->
           prop error "Code" = Some code -> prop error "Message" = Some message ->
           err = VObj [("code", code); ("message", message)])
    /\ (forall json_res,
           xml_parse R (body res) = Some json_res ->
           (forall error, prop json_res "Error" = Some error -> truthy error = false) ->
           err = VObj [("code", VStr (request_type +:+ "_ERROR")); ("message", json_res)]).
Proof.
  intros Hs. unfold _validateUpOrDownloadSuccess.
  destruct (Z.eqb_spec (statusCode res) 200) as [| _]; [done |].
  destruct (xml_parse R (body res)) as [json_res |] eqn:Hx.
  - munfold. destruct (truthy json_res) eqn:Tj.
    + destruct (prop_truthy json_res "Error" Tj) as [error He]. rewrite He. simpl.
      destruct (truthy error) eqn:Te.
      * destruct (prop_truthy error "Code" Te) as [code Hc].
        destruct (prop_truthy error "Message" Te) as [message Hm].
        rewrite Hc. simpl. rewrite Hm. simpl.
        eexists. split; [reflexivity |]. split; [done |]. split.
        -- intros j e c m [= <-] He' _ Hc' Hm'. congruence.
        -- intros j [= <-] Hno. specialize (Hno _ He). congruence.
      * eexists. split; [reflexivity |]. split; [done |]. split.
        -- intros j e c m [= <-] He' Te' _ _. congruence.
        -- by intros j [= <-] _.
    + simpl. rewrite Tj. eexists. split; [reflexivity |]. split; [done |]. split.
      * intros j e c m [= <-] He' Te' _ _.
        pose proof (prop_truthy_base _ _ _ He' Te'). congruence.
      * by intros j [= <-] _.
  - eexists. split; [reflexivity |]. split; [done |]. split; by intros.
Qed.

(** X6.  The check of the response to a transfer lets status 200 pass,
    whatever the body, and ends every other response with a [CustomError],
    never with a return and never with an error of another kind. The code and
    the message are those of the [Error] element when the body parses to a
    document that has one; otherwise the code is the request type followed by
    "_ERROR", and the message what the body parsed to, or the body when it
    does not parse. The state is left alone. *)
Theorem _validateUpOrDownloadSuccess_outcome res request_type st :
  (statusCode res = 200 ->
   _validateUpOrDownloadSuccess R res request_type st = (Return tt, st))
  /\ (statusCode res <> 200 ->
      exists err,
        _validateUpOrDownloadSuccess R res request_type st = (Throw (CustomError err), st)
        /\ (xml_parse R (body res) = None ->
            err = VObj [("code", VStr (request_type +:+ "_ERROR"));
                        ("message", VStr (body res))])
        /\ (forall json_res error code message,
               xml_parse R (body res) = Some json_res ->
               prop json_res "Error" = Some error -> truthy error = true ->
               prop error "Code" = Some code -> prop error "Message" = Some message ->
               err = VObj [("code", code); ("message", message)])
        /\ (forall json_res,
               xml_parse R (body res) = Some json_res ->
               (forall error, prop json_res "Error" = Some error -> truthy error = false) ->
               err = VObj [("code", VStr (request_type +:+ "_ERROR"));
                           ("message", json_res)])).
Proof.
  split.
  - intros Hs. unfold _validateUpOrDownloadSuccess. by rewrite Hs.
  - apply _validateUpOrDownloadSuccess_not_200.
Qed.

(** X7.  When the storage service answers a download with a status other than
    200, [download] throws a [CustomError] right after its one request:
    nothing is decrypted and, whatever the options, no file is written. *)
Theorem download_fails_unless_200 details options st res rest :
  (_validateEncryptionDetails details st).1 = Return tt ->
  inbox (wld st) = Reply res :: rest -> statusCode res <> 200 ->
  exists err url,
    prop details "url" = Some url
    /\ download R details options st
       = (Throw (CustomError err),
          {| sess := sess st;
             wld := {| inbox := rest;
                       log := log (wld st)
                              ++ [EvRequest {| rq_method := None; rq_url := url;
                                               rq_headers := []; rq_body := NoBody |}] |} |})
    /\ (xml_parse R (body res) = None ->
        err = VObj [("code", VStr "DOWNLOAD_ERROR"); ("message", VStr (body res))]).
Proof.
  intros Hv Hin Hs.
  pose proof (_validateEncryptionDetails_pure details st) as Hp.
  destruct (_validateEncryptionDetails details st) as [r st'] eqn:E.
  simpl in Hv, Hp. subst r st'.
  assert (exists url, prop details "url" = Some url) as [url Hurl].
  { apply prop_truthy. destruct (truthy details) eqn:Td; [done |].
    unfold _validateEncryptionDetails in E. munfold. by rewrite Td in E. }
  destruct (_validateUpOrDownloadSuccess_not_200 res "DOWNLOAD"
                     {| sess := sess st;
                        wld := {| inbox := rest;
                                  log := log (wld st)
                                         ++ [EvRequest {| rq_method := None; rq_url := url;
                                                          rq_headers := [];
                                                          rq_body := NoBody |}] |} |} Hs)
    as (err & Hthrow & Hnone & _).
  exists err, url. split; [done |]. split; [| done].
  unfold download. munfold. rewrite E, Hurl. unfold request. rewrite Hin.
  by rewrite Hthrow.
Qed.

End Transfer_response.

(** ** The content of a feed *)

Section Feed_content.

Context (R : Runtime).

Lemma log_adds_refl Q st : log_adds Q st st.
Proof. exists []. by rewrite app_nil_r. Qed.

Lemma log_adds_trans Q a b c : log_adds Q a b -> log_adds Q b c -> log_adds Q a c.
Proof.
  intros (l & Hl & Ql) (l' & Hl' & Ql'). exists (l ++ l').
  split; [by rewrite Hl', Hl, app_assoc | by apply Forall_app].
Qed.

Lemma log_adds_request Q rq : Q (EvRequest rq) -> preserves (log_adds Q) (request rq).
Proof.
  intros HQ st. exists [EvRequest rq]. split; [| by repeat constructor].
  unfold request. by destruct (inbox (wld st)) as [| [] ?].
Qed.

Lemma log_adds_emit Q ev : Q ev -> preserves (log_adds Q) (emit ev).
Proof. intros HQ st. exists [ev]. split; [done | by repeat constructor]. Qed.

Lemma log_adds_update Q f : preserves (log_adds Q) (update_session f).
Proof. intros st. exists []. split; [by rewrite app_nil_r | constructor]. Qed.

(** X8.  A feed that has content is uploaded as the same feed without its
    file: the file is ignored, and no file is read. *)
Theorem upload_content_overrides_file details f st :
  truthy_str (content f) = true ->
  upload R details (Some f) st
  = upload R details
      (Some {| content := content f; file := None; contentType := contentType f |}) st
  /\ log_adds reads_no_file st (upload R details (Some f) st).2.
Proof.
  intros Hc. split.
  - unfold upload. simpl. by rewrite Hc.
  - unfold upload. rewrite Hc. simpl.
    apply (preserves_bind (log_adds reads_no_file) (log_adds_trans _)).
    + apply preserves__validateEncryptionDetails;
        eauto using log_adds_refl, log_adds_trans.
    + intros _. destruct (negb (truthy_str (contentType f))).
      * apply preserves_throw, log_adds_refl.
      * apply (preserves_bind (log_adds reads_no_file) (log_adds_trans _)).
        -- apply preserves_ret, log_adds_refl.
        -- intros feed_content.
           apply preserves_upload_content;
             eauto using log_adds_refl, log_adds_trans.
           intros rq. by apply log_adds_request.
Qed.

Lemma strip_prefix_None p s : String.prefix p s = false -> Re.strip_prefix p s = None.
Proof.
  revert s. induction p as [| a p IH]; intros [| b s]; simpl; try done.
  destruct (Ascii.eqb_spec a b) as [-> | Hne].
  - destruct (ascii_dec b b); [apply IH | done].
  - destruct (ascii_dec a b); [done | done].
Qed.

Lemma match_charset_None s : Re.includes "charset=" s = false -> Re.match_charset s = None.
Proof.
  induction s as [| c s IH].
  - done.
  - intros H. change (Re.includes "charset=" (String c s))
      with (String.prefix "charset=" (String c s) || Re.includes "charset=" s) in H.
    apply orb_false_elim in H as [Hp Hi].
    change (Re.match_charset (String c s))
      with (match Re.strip_prefix "charset=" (String c s) with
            | Some rest => Some (Re.take_until_semicolon rest)
            | None => Re.match_charset s
            end).
    rewrite (strip_prefix_None _ _ Hp). by apply IH.
Qed.

(** X9.  [_readFile] reads the file once, with an encoding that is never
    "ISO-8859-1" in any casing (that charset is read as "latin1"), and with
    "utf-8" when the content type names no charset or an empty one; what the
    file system gives back, text or error, is the outcome. *)
Theorem _readFile_encoding file content_type st :
  exists encoding,
    _readFile R file content_type st
    = (match fs_readFile R file encoding with
       | Ok text => Return text
       | Err reason => Throw (ForeignError reason)
       end,
       {| sess := sess st;
          wld := {| inbox := inbox (wld st);
                    log := log (wld st) ++ [EvReadFile file encoding] |} |})
    /\ Re.toUpperCase encoding <> "ISO-8859-1"
    /\ (Re.includes "charset=" content_type = false -> encoding = "utf-8")
    /\ (forall charset,
           Re.match_charset content_type = Some charset ->
           encoding = if String.eqb charset "" then "utf-8"
                      else if String.eqb (Re.toUpperCase charset) "ISO-8859-1" then "latin1"
                           else charset).
Proof.
  unfold _readFile.
  set (e0 := match Re.match_charset content_type with
             | Some g => if String.eqb g "" then "utf-8" else g
             | None => "utf-8"
             end).
  exists (if String.eqb (Re.toUpperCase e0) "ISO-8859-1" then "latin1" else e0).
  split; [| split; [| split]].
  - munfold. by destruct (fs_readFile R file _).
  - destruct (String.eqb_spec (Re.toUpperCase e0) "ISO-8859-1"); [discriminate | done].
  - intros H. unfold e0. by rewrite (match_charset_None _ H).
  - intros charset H. unfold e0. rewrite H.
    by destruct (String.eqb charset "").
Qed.

End Feed_content.

(** ** The options of [download] *)

Section Download_options.

Context (R : Runtime).

(** X10.  With a file among the options, [download] is the download without
    the file, followed by the saving of what that download returned, and it
    returns the same: the document is handed back whether or not it is saved,
    and only a failure to write makes a difference. In particular, without the
    option [json], the file receives the returned document itself. *)
Theorem download_saves_what_it_returns details options st f :
  opt_file options = Some f -> f <> "" ->
  let unsaved := {| opt_json := opt_json options; opt_unzip := opt_unzip options;
                    opt_file := None; opt_charset := opt_charset options |} in
  download R details options st
  = (download R details unsaved
       ≫= fun decrypted => _saveFile R decrypted (opt_json options) f;; mret decrypted) st
  /\ forall decrypted st1,
      download R details unsaved st = (Return decrypted, st1) ->
      opt_json options = false ->
      download R details options st
      = (match fs_writeFile R f decrypted with
         | None => Return decrypted
         | Some err => Throw (ForeignError err)
         end,
         {| sess := sess st1;
            wld := {| inbox := inbox (wld st1);
                      log := log (wld st1) ++ [EvWriteFile f decrypted] |} |}).
Proof.
  intros Hf Hne unsaved.
  assert (download R details options st
          = (download R details unsaved
               ≫= fun decrypted =>
                    _saveFile R decrypted (opt_json options) f;; mret decrypted) st)
    as Hlaw.
  { unfold download, unsaved. simpl. rewrite Hf. simpl.
    destruct (String.eqb_spec f "") as [| _]; [done |]. simpl.
    repeat (rewrite bind_assoc; apply bind_ext; intros ? ?).
    munfold. reflexivity. }
  split; [exact Hlaw |].
  intros decrypted st1 Hd Hj. rewrite Hlaw, (bind_Return _ _ _ _ _ Hd), Hj.
  unfold _saveFile. munfold. simpl. by destruct (fs_writeFile R f decrypted).
Qed.


(** Running a computation along the steps that another run has taken. *)
Ltac replay :=
  repeat match goal with
         | Hx : ?m ?s = (Return ?a, ?s') |- context [(?m ≫= _) ?s] =>
             rewrite (bind_Return m _ s a s' Hx)
         end.

(** X12.  The option [json] changes what a downloaded text is returned as, by
    the content type of the response: with "xml" in it the text goes through
    the XML parser, otherwise with "plain" in it through the CSV reader, and a
    text that does not parse ends the download with PARSE_ERROR; a response
    without a content type also ends it with PARSE_ERROR; under any other
    content type the option does nothing and the text is returned. *)
Theorem download_json details options st res rest text st1 :
  opt_json options = true -> truthy_str (opt_file options) = false ->
  inbox (wld st) = Reply res :: rest ->
  download R details
    {| opt_json := false; opt_unzip := opt_unzip options;
       opt_file := opt_file options; opt_charset := opt_charset options |} st
  = (Return (DocValue (VStr text)), st1) ->
  (assoc_string "content-type" (headers res) = None ->
   download R details options st = (Throw (parse_error text), st1))
  /\ forall content_type,
      assoc_string "content-type" (headers res) = Some content_type ->
      (Re.includes "xml" content_type = true ->
       download R details options st
       = (match xml_parse R text with
          | Some v => Return (DocValue v)
          | None => Throw (parse_error text)
          end, st1))
      /\ (Re.includes "xml" content_type = false ->
          Re.includes "plain" content_type = true ->
          download R details options st
          = (match csv_fromString R text with
             | Some v => Return (DocValue v)
             | None => Throw (parse_error text)
             end, st1))
      /\ (Re.includes "xml" content_type = false ->
          Re.includes "plain" content_type = false ->
          download R details options st = (Return (DocValue (VStr text)), st1)).
Proof.
  intros Hj Hf Hin H. unfold download in H. simpl in H. rewrite Hf in H.
  repeat (apply bind_Return_inv in H as (? & ? & ? & H)).
  injection H as -> ->.
  match goal with
  | Hv : _validateEncryptionDetails details st = (Return _, ?s) |- _ =>
      pose proof (_validateEncryptionDetails_pure details st) as Hp;
      rewrite Hv in Hp; simpl in Hp; subst s
  end.
  match goal with
  | Hu : get_prop details "url" st = (Return _, ?s) |- _ =>
      pose proof Hu as Hu'; apply get_prop_Return_inv in Hu' as [_ ->]
  end.
  match goal with
  | Hr : request _ st = (Return ?r, ?s) |- _ =>
      pose proof Hr as Hr'; unfold request in Hr'; rewrite Hin in Hr';
      injection Hr' as <- _
  end.
  match goal with
  | Hd : (if ?c then _ else mret (DocBuffer _)) _ = (Return _, _) |- _ =>
      destruct c eqn:Hc; [| by injection Hd];
      apply bind_Return_inv in Hd as (decoded & ? & Hdecode & Hd);
      injection Hd as -> <-
  end.
  match goal with
  | Hs : mret tt _ = (Return _, _) |- _ => injection Hs as <-
  end.
  subst.
  assert (download R details options st
          = match assoc_string "content-type" (headers res) with
            | None => throw (parse_error text)
            | Some content_type =>
                if Re.includes "xml" content_type then
                  match xml_parse R text with
                  | Some v => mret (DocValue v)
                  | None => throw (parse_error text)
                  end
                else if Re.includes "plain" content_type then
                  match csv_fromString R text with
                  | Some v => mret (DocValue v)
                  | None => throw (parse_error text)
                  end
                else mret (DocValue (VStr text))
            end st1) as ->.
  { unfold download. rewrite Hj, Hf. replay. rewrite Hc.
    rewrite bind_assoc. replay.
    destruct (assoc_string "content-type" (headers res)) as [content_type |];
      [| reflexivity].
    destruct (Re.includes "xml" content_type).
    - destruct (xml_parse R text); reflexivity.
    - destruct (Re.includes "plain" content_type); [| reflexivity].
      destruct (csv_fromString R text); reflexivity. }
  split; [by intros -> |].
  intros content_type ->. split; [| split].
  - intros ->. by destruct (xml_parse R text).
  - intros -> ->. by destruct (csv_fromString R text).
  - by intros -> ->.
Qed.

End Download_options.

(** ** The two refresh operations *)

Section Refresh_outcomes.

Context (R : Runtime).

Lemma _constructRefreshAccessTokenBody_eq scope st app_client id secret :
  prop (_credentials (sess st)) "app_client" = Some app_client ->
  prop app_client "id" = Some id -> prop app_client "secret" = Some secret ->
  _constructRefreshAccessTokenBody R scope st
  = (if truthy_str scope then
       if negb (existsb (String.eqb (default "" scope)) valid_scopes) then
         throw (custom "INVALID_SCOPE_ERROR"
                  (VStr ("Scope for requesting token for grantless operations is invalid. Please provide one of: "
                         +:+ join "," valid_scopes)))
       else
         mret (JSON_stringify R
                 (VObj ([("client_id", id); ("client_secret", secret)]
                        ++ [("grant_type", VStr "client_credentials");
                            ("scope", of_opt scope)])))
     else if negb (only_grantless_operations (_options (sess st))) then
       mret (JSON_stringify R
               (VObj ([("client_id", id); ("client_secret", secret)]
                      ++ [("grant_type", VStr "refresh_token");
                          ("refresh_token", _refresh_token (sess st))])))
     else
       throw (custom "NO_SCOPE_PROVIDED"
                (VStr ("Grantless tokens require a scope. Please provide one of: "
                       +:+ join "," valid_scopes)))) st.
Proof.
  intros Hac Hid Hsec. unfold _constructRefreshAccessTokenBody.
  rewrite (bind_Return get_session _ st (sess st) st eq_refl).
  rewrite (bind_Return _ _ _ _ _ (get_prop_Some _ _ _ st Hac)).
  rewrite (bind_Return _ _ _ _ _ (get_prop_Some _ _ _ st Hid)).
  by rewrite (bind_Return _ _ _ _ _ (get_prop_Some _ _ _ st Hsec)).
Qed.

(** [refreshAccessToken] from the answer of the token endpoint on. *)
Lemma refreshAccessToken_answered scope st request_body res rest :
  _constructRefreshAccessTokenBody R scope st = (Return request_body, st) ->
  inbox (wld st) = Reply res :: rest ->
  refreshAccessToken R scope st
  = match JSON_parse R (body res) with
    | None => throw (custom "REFRESH_ACCESS_TOKEN_PARSE_ERROR" (VStr (body res)))
    | Some json_res =>
        access_token ← get_prop json_res "access_token";
        if truthy access_token then update_session (store_token scope access_token)
        else
          error ← get_prop json_res "error";
          if truthy error then
            error_description ← get_prop json_res "error_description";
            throw (custom_v error error_description)
          else throw (custom "UNKNOWN_REFRESH_ACCESS_TOKEN_ERROR" (VStr (body res)))
    end (answered (token_request request_body) rest st).
Proof.
  intros Hbody Hin. unfold refreshAccessToken. rewrite (bind_Return _ _ _ _ _ Hbody).
  by rewrite (bind_Return _ _ _ _ _ (request_answered _ _ _ _ Hin)).
Qed.

Lemma refreshAccessToken_Return scope st request_body res rest tok :
  _constructRefreshAccessTokenBody R scope st = (Return request_body, st) ->
  inbox (wld st) = Reply res :: rest -> grants R res tok ->
  refreshAccessToken R scope st
  = (Return tt,
     {| sess := store_token scope tok (sess st);
        wld := wld (answered (token_request request_body) rest st) |}).
Proof.
  intros Hbody Hin (json_res & Hj & Ht & Htok).
  rewrite (refreshAccessToken_answered _ _ _ _ _ Hbody Hin), Hj.
  rewrite (bind_Return _ _ _ _ _ (get_prop_Some _ _ _ _ Ht)). by rewrite Htok.
Qed.

(** [refreshRoleCredentials] from the answer to its request on. *)
Lemma refreshRoleCredentials_answered st aws_user res rest :
  prop (_credentials (sess st)) "aws_user" = Some aws_user ->
  inbox (wld st) = Reply res :: rest ->
  refreshRoleCredentials R st
  = match xml_parse R (body res) with
    | None => throw (custom "XML_PARSE_ERROR" (VStr (body res)))
    | Some json_res =>
        a ← and_prop json_res "AssumeRoleResponse";
        b ← and_prop a "AssumeRoleResult";
        role_credentials ← and_prop b "Credentials";
        if truthy role_credentials then
          id ← get_prop role_credentials "AccessKeyId";
          secret ← get_prop role_credentials "SecretAccessKey";
          security_token ← get_prop role_credentials "SessionToken";
          update_session
            (set_role_credentials
               (VObj [("id", id); ("secret", secret);
                      ("security_token", security_token)]))
        else
          e ← and_prop json_res "ErrorResponse";
          error ← and_prop e "Error";
          if truthy error then
            code ← get_prop error "Code";
            message ← get_prop error "Message";
            throw (custom_v code message)
          else throw (custom "NO_ROLE_CREDENTIALS_RECEIVED" (VStr (body res)))
    end (answered (signRoleCredentialsRequest R (_region (sess st)) aws_user) rest st).
Proof.
  intros Hu Hin. unfold refreshRoleCredentials. munfold. rewrite Hu. simpl.
  by rewrite (request_answered _ _ _ _ Hin).
Qed.

Lemma refreshRoleCredentials_Return st aws_user res rest credentials :
  prop (_credentials (sess st)) "aws_user" = Some aws_user ->
  inbox (wld st) = Reply res :: rest -> delivers R res credentials ->
  exists id secret security_token,
    prop credentials "AccessKeyId" = Some id
    /\ prop credentials "SecretAccessKey" = Some secret
    /\ prop credentials "SessionToken" = Some security_token
    /\ refreshRoleCredentials R st
       = (Return tt,
          {| sess := set_role_credentials
                       (VObj [("id", id); ("secret", secret);
                              ("security_token", security_token)]) (sess st);
             wld := wld (answered (signRoleCredentialsRequest R (_region (sess st))
                                     aws_user) rest st) |}).
Proof.
  intros Hu Hin (json_res & a & b & Hx & Ha & Hb & Hc & Tc).
  pose proof (prop_truthy_base _ _ _ Hc Tc) as Tb.
  pose proof (prop_truthy_base _ _ _ Hb Tb) as Ta.
  destruct (prop_truthy credentials "AccessKeyId" Tc) as [id Hid].
  destruct (prop_truthy credentials "SecretAccessKey" Tc) as [secret Hsecret].
  destruct (prop_truthy credentials "SessionToken" Tc) as [token Htoken].
  exists id, secret, token. repeat (split; [done |]).
  rewrite (refreshRoleCredentials_answered _ _ _ _ Hu Hin), Hx.
  rewrite (bind_Return _ _ _ _ _ (and_prop_Some _ _ _ _ Ha Ta)).
  rewrite (bind_Return _ _ _ _ _ (and_prop_Some _ _ _ _ Hb Tb)).
  rewrite (bind_Return _ _ _ _ _ (and_prop_Some _ _ _ _ Hc Tc)), Tc.
  rewrite (bind_Return _ _ _ _ _ (get_prop_Some _ _ _ _ Hid)).
  rewrite (bind_Return _ _ _ _ _ (get_prop_Some _ _ _ _ Hsecret)).
  by rewrite (bind_Return _ _ _ _ _ (get_prop_Some _ _ _ _ Htoken)).
Qed.

(** X13.  [refreshAccessToken] looks at the scope before it sends anything: a
    scope that is not one of the two scopes of grantless operations is refused
    with INVALID_SCOPE_ERROR, and no scope at all, when only grantless
    operations are allowed, with NO_SCOPE_PROVIDED. In both cases no request
    goes out and the session is as it was. *)
Theorem refreshAccessToken_checks_scope_first scope st app_client id secret :
  prop (_credentials (sess st)) "app_client" = Some app_client ->
  prop app_client "id" = Some id -> prop app_client "secret" = Some secret ->
  (truthy_str scope = true -> default "" scope ∉ valid_scopes ->
   exists e, refreshAccessToken R scope st = (Throw e, st)
             /\ exn_code e = VStr "INVALID_SCOPE_ERROR")
  /\ (truthy_str scope = false -> only_grantless_operations (_options (sess st)) = true ->
      exists e, refreshAccessToken R scope st = (Throw e, st)
                /\ exn_code e = VStr "NO_SCOPE_PROVIDED").
Proof.
  intros Hac Hid Hsec.
  assert (forall e,
             _constructRefreshAccessTokenBody R scope st = (Throw e, st) ->
             refreshAccessToken R scope st = (Throw e, st)) as Hthrow.
  { intros e H. unfold refreshAccessToken. munfold. by rewrite H. }
  pose proof (_constructRefreshAccessTokenBody_eq scope st _ _ _ Hac Hid Hsec) as Hbody.
  split.
  - intros Hs Hnv.
    assert (existsb (String.eqb (default "" scope)) valid_scopes = false) as Hex.
    { apply not_true_is_false. intros (x & Hx & Heq)%existsb_exists.
      apply String.eqb_eq in Heq as <-. by apply Hnv, list_elem_of_In. }
    eexists. split; [apply Hthrow; by rewrite Hbody, Hs, Hex | reflexivity].
  - intros Hs Hog.
    eexists. split; [apply Hthrow; by rewrite Hbody, Hs, Hog | reflexivity].
Qed.

(** X14.  When the token endpoint grants a token, [refreshAccessToken] returns
    after one request, the POST of the body it constructed. Without a scope
    the getter [access_token] then gives the granted token; with a scope the
    granted token is the token of that scope and the getter gives what it gave
    before. The role credentials are not touched. *)
Theorem refreshAccessToken_granted scope st request_body res rest tok :
  _constructRefreshAccessTokenBody R scope st = (Return request_body, st) ->
  inbox (wld st) = Reply res :: rest -> grants R res tok ->
  exists st',
    refreshAccessToken R scope st = (Return tt, st')
    /\ wld st' = wld (answered (token_request request_body) rest st)
    /\ token_for_request (sess st') scope = tok
    /\ access_token (sess st')
       = (if truthy_str scope then access_token (sess st) else tok)
    /\ role_credentials (sess st') = role_credentials (sess st).
Proof.
  intros Hbody Hin Hgrant.
  eexists. split; [exact (refreshAccessToken_Return _ _ _ _ _ _ Hbody Hin Hgrant) |].
  simpl. split; [done |]. unfold token_for_request, store_token, grantless_token.
  destruct (truthy_str scope); simpl; [| done].
  by rewrite lookup_insert_eq.
Qed.

(** X15.  When the token endpoint grants nothing, [refreshAccessToken] throws
    after its one request and leaves the session as it was: with
    REFRESH_ACCESS_TOKEN_PARSE_ERROR when the body is not JSON, with the error
    and the error description of the body as code and message when the body
    has an error, and with UNKNOWN_REFRESH_ACCESS_TOKEN_ERROR otherwise. *)
Theorem refreshAccessToken_refused scope st request_body res rest :
  _constructRefreshAccessTokenBody R scope st = (Return request_body, st) ->
  inbox (wld st) = Reply res :: rest ->
  let st' := answered (token_request request_body) rest st in
  (JSON_parse R (body res) = None ->
   refreshAccessToken R scope st
   = (Throw (custom "REFRESH_ACCESS_TOKEN_PARSE_ERROR" (VStr (body res))), st'))
  /\ (forall json_res tok error,
         JSON_parse R (body res) = Some json_res ->
         prop json_res "access_token" = Some tok -> truthy tok = false ->
         prop json_res "error" = Some error ->
         (truthy error = true ->
          exists description,
            prop json_res "error_description" = Some description
            /\ refreshAccessToken R scope st = (Throw (custom_v error description), st'))
         /\ (truthy error = false ->
             refreshAccessToken R scope st
             = (Throw (custom "UNKNOWN_REFRESH_ACCESS_TOKEN_ERROR" (VStr (body res))),
                st'))).
Proof.
  intros Hbody Hin st'. rewrite (refreshAccessToken_answered _ _ _ _ _ Hbody Hin).
  fold st'.
  split.
  - by intros ->.
  - intros json_res tok error -> Ht Tt He. munfold. rewrite Ht. simpl.
    rewrite Tt, He. simpl. split.
    + intros Te. rewrite Te.
      destruct (prop_truthy json_res "error_description"
                  (prop_truthy_base _ _ _ He Te)) as [description Hd].
      exists description. by rewrite Hd.
    + by intros ->.
Qed.

(** X16.  Whatever the answer to its request is, [refreshRoleCredentials] ends
    in one of two ways, once the credentials of the AWS user can be read: it
    stores an object with the three keys id, secret and security_token and
    returns, or it throws a [CustomError] and leaves the session as it was. It
    throws XML_PARSE_ERROR when the body does not parse; an error of the
    engine never comes out of the reading of a response. *)
Theorem refreshRoleCredentials_outcome st aws_user res rest :
  prop (_credentials (sess st)) "aws_user" = Some aws_user ->
  inbox (wld st) = Reply res :: rest ->
  let st' := answered (signRoleCredentialsRequest R (_region (sess st)) aws_user) rest st in
  ((exists id secret security_token,
       refreshRoleCredentials R st
       = (Return tt,
          {| sess := set_role_credentials
                       (VObj [("id", id); ("secret", secret);
                              ("security_token", security_token)]) (sess st);
             wld := wld st' |}))
   \/ (exists err, refreshRoleCredentials R st = (Throw (CustomError err), st')))
  /\ (xml_parse R (body res) = None ->
      refreshRoleCredentials R st = (Throw (custom "XML_PARSE_ERROR" (VStr (body res))), st')).
Proof.
  intros Hu Hin st'. rewrite (refreshRoleCredentials_answered _ _ _ _ Hu Hin).
  fold st'.
  split; [| by intros ->].
  destruct (xml_parse R (body res)) as [json_res |]; [| right; by eexists].
  assert (forall v k, exists x, and_prop v k st' = (Return x, st')) as Hand.
  { intros v k. unfold and_prop. destruct (truthy v) eqn:Tv; [| by eexists].
    destruct (prop_truthy v k Tv) as [x Hx]. exists x. unfold get_prop. by rewrite Hx. }
  assert (forall v k, truthy v = true -> exists x, get_prop v k st' = (Return x, st'))
    as Hget.
  { intros v k Tv. destruct (prop_truthy v k Tv) as [x Hx].
    exists x. unfold get_prop. by rewrite Hx. }
  destruct (Hand json_res "AssumeRoleResponse") as [a Ha].
  rewrite (bind_Return _ _ _ _ _ Ha).
  destruct (Hand a "AssumeRoleResult") as [b Hb]. rewrite (bind_Return _ _ _ _ _ Hb).
  destruct (Hand b "Credentials") as [c Hc]. rewrite (bind_Return _ _ _ _ _ Hc).
  destruct (truthy c) eqn:Tc.
  - left. destruct (Hget c "AccessKeyId" Tc) as [id Hid].
    destruct (Hget c "SecretAccessKey" Tc) as [secret Hsecret].
    destruct (Hget c "SessionToken" Tc) as [token Htoken].
    exists id, secret, token.
    rewrite (bind_Return _ _ _ _ _ Hid), (bind_Return _ _ _ _ _ Hsecret).
    by rewrite (bind_Return _ _ _ _ _ Htoken).
  - right. destruct (Hand json_res "ErrorResponse") as [e He].
    rewrite (bind_Return _ _ _ _ _ He).
    destruct (Hand e "Error") as [error Herror]. rewrite (bind_Return _ _ _ _ _ Herror).
    destruct (truthy error) eqn:Te; [| by eexists].
    destruct (Hget error "Code" Te) as [code Hcode].
    destruct (Hget error "Message" Te) as [message Hmessage].
    rewrite (bind_Return _ _ _ _ _ Hcode), (bind_Return _ _ _ _ _ Hmessage).
    by eexists.
Qed.

End Refresh_outcomes.

(** ** What [callAPI] sends and what it makes of a response *)

Section Call_outcomes.

Context (R : Runtime).

Lemma _tokenExists_token_for_request this scope :
  _tokenExists this scope = truthy (token_for_request this scope).
Proof.
  unfold _tokenExists, token_for_request.
  destruct (truthy_str scope); simpl;
    [by rewrite andb_false_r | by rewrite andb_true_r, orb_false_r].
Qed.

(** The validation returns only with a token for the scope and with role
    credentials in the session. *)
Lemma validation_returns scope st st' :
  _validateAccessTokenAndRoleCredentials R scope st = (Return tt, st') ->
  _tokenExists (sess st') scope = true /\ truthy (_role_credentials (sess st')) = true.
Proof.
  unfold _validateAccessTokenAndRoleCredentials.
  intros (this & st0 & _ & H)%bind_Return_inv.
  apply bind_Return_inv in H as ([] & st1 & _ & H).
  apply bind_Return_inv in H as (this' & st2 & Hget & H).
  unfold get_session in Hget. injection Hget as <- <-.
  destruct (_tokenExists (sess st1) scope) eqn:Ht,
    (truthy (_role_credentials (sess st1))) eqn:Hr;
    munfold; simpl in H; try discriminate.
  by injection H as <-.
Qed.


(** X17.  What [callAPI] has sent when its request is answered: the session
    holds role credentials and a token for the operation (the token of the
    scope when the operation has one, the access token otherwise), and the
    last request that went out is the request that the signer made of that
    token, those credentials and the parameters as the catalog expanded them.
    *)
Theorem callAPI_signs_with_token_and_role_credentials rp st expanded res st1 :
  callAPI_send R rp st = (Return (expanded, res), st1) ->
  truthy (token_for_request (sess st1) (scope expanded)) = true
  /\ truthy (_role_credentials (sess st1)) = true
  /\ exists l,
      log (wld st1)
      = l ++ [EvRequest
                (signAPIRequest R (_region (sess st1)) (use_sandbox (_options (sess st1)))
                   (token_for_request (sess st1) (scope expanded))
                   (_role_credentials (sess st1)) expanded)].
Proof.
  unfold callAPI_send. intros ([] & st0 & _ & H)%bind_Return_inv.
  destruct (operations R (default "" (operation rp))) as [expand |]; [| done].
  apply bind_Return_inv in H as ([] & st2 & _ & H).
  apply bind_Return_inv in H as ([] & st3 & Hv & H).
  apply validation_returns in Hv as [Htok Hrc].
  apply bind_Return_inv in H as (this & st4 & Hget & H).
  unfold get_session in Hget. injection Hget as <- <-.
  apply bind_Return_inv in H as (res' & st5 & Hreq & H).
  injection H as <- <- <-.
  assert (sess st5 = sess st3 /\ log (wld st5) = log (wld st3) ++ [EvRequest
            (signAPIRequest R (_region (sess st3)) (use_sandbox (_options (sess st3)))
               (token_for_request (sess st3) (scope (expand rp)))
               (_role_credentials (sess st3)) (expand rp))]) as [Hs Hl].
  { unfold request in Hreq. destruct (inbox (wld st3)) as [| [] ?]; try discriminate.
    by injection Hreq as <- <-. }
  rewrite Hs. rewrite <- _tokenExists_token_for_request.
  split; [done |]. split; [done |]. by eexists.
Qed.


(** X19.  With [only_grantless_operations] switched on, an operation that the
    catalog gives no scope is refused with INVALID_OPERATION_ERROR before a
    token is looked at, refreshed or sent. *)
Theorem callAPI_only_grantless_operations fuel rp st expand :
  truthy_str (operation rp) = true ->
  operations R (default "" (operation rp)) = Some expand ->
  only_grantless_operations (_options (sess st)) = true ->
  truthy_str (scope (expand rp)) = false ->
  exists e,
    callAPI R (S fuel) rp st = (Throw e, st)
    /\ exn_code e = VStr "INVALID_OPERATION_ERROR".
Proof.
  intros Hop Hcat Hog Hscope. eexists. split.
  - rewrite callAPI_S.
    unfold callAPI_send, _validateOperation, _validateOperationAllowance.
    rewrite Hop, Hcat. munfold. simpl. rewrite Hog, Hscope. reflexivity.
  - reflexivity.
Qed.

(** X20.  The body of a response is parsed as JSON, with its line feeds
    removed, unless the response is the answer 204 to a DELETE, which is a
    success whatever its body. A body that does not parse ends the call with
    JSON_PARSE_ERROR, and the message is the body as it came. *)
Theorem callAPI_parses_all_but_delete_204 fuel rp st expanded res st1 :
  callAPI_send R rp st = (Return (expanded, res), st1) ->
  (statusCode res = 204 -> method expanded = Some "DELETE" ->
   callAPI R (S fuel) rp st = (Return (VObj [("success", VBool true)]), st1))
  /\ (statusCode res <> 204 \/ method expanded <> Some "DELETE" ->
      JSON_parse R (Re.strip_newlines (body res)) = None ->
      callAPI R (S fuel) rp st
      = (Throw (custom "JSON_PARSE_ERROR" (VStr (body res))), st1)).
Proof.
  intros Hsend. rewrite callAPI_S, (bind_Return _ _ _ _ _ Hsend).
  unfold callAPI_interpret. split.
  - intros Hs Hm. rewrite Hs, Hm. reflexivity.
  - intros Hnd Hp. rewrite Hp.
    assert ((statusCode res =? 204)%Z && bool_decide (method expanded = Some "DELETE")
            = false) as ->; [| done].
    destruct Hnd as [H | H].
    + by destruct (Z.eqb_spec (statusCode res) 204).
    + rewrite (bool_decide_eq_false_2 _ H). apply andb_false_r.
Qed.

End Call_outcomes.

(** ** The errors of a response *)

Section Call_errors.

Context (R : Runtime).

(** The part of [callAPI_interpret] that looks at the first error. *)
Lemma callAPI_interpret_error self req_params res error code st :
  (statusCode res =? 204)%Z && bool_decide (method req_params = Some "DELETE") = false ->
  first_error R res error -> prop error "code" = Some code ->
  callAPI_interpret R self req_params res st
  = (if (statusCode res =? 403)%Z && is_str code "Unauthorized" then
       if auto_request_tokens (_options (sess st)) then
         details ← get_prop error "details";
         if Re.access_token_expired details then
           refreshAccessToken R (scope req_params);; self req_params
         else
           message ← get_prop error "message";
           if Re.security_token_expired message then
             refreshRoleCredentials R;; self req_params
           else throw (CustomError error)
       else throw (CustomError error)
     else if (statusCode res =? 429)%Z && is_str code "QuotaExceeded"
             && auto_request_throttled (_options (sess st)) then
       _wait (restore_rate req_params);; self req_params
     else if is_str code "InternalFailure" && use_sandbox (_options (sess st)) then
       throw (custom "INVALID_SANDBOX_PARAMETERS"
                (VStr "You're in SANDBOX mode, make sure sandbox parameters are correct, as in Amazon SP API documentation: https://github.com/amzn/selling-partner-api-docs/blob/main/guides/developer-guide/SellingPartnerApiDeveloperGuide.md#how-to-make-a-sandbox-call-to-the-selling-partner-api"))
     else throw (CustomError error)) st.
Proof.
  intros Hd (json_res & errors & Hp & He & Te & Hi) Hc.
  unfold callAPI_interpret. rewrite Hd, Hp. munfold.
  rewrite He. simpl. rewrite Te, Hi. simpl. by rewrite Hc.
Qed.

(** X21.  In sandbox mode a response whose first error has the code
    "InternalFailure" ends the call with INVALID_SANDBOX_PARAMETERS, whatever
    its status and whatever the retry options: no retry and no refresh
    follows. *)
Theorem callAPI_sandbox_internal_failure fuel rp st expanded res st1 error :
  callAPI_send R rp st = (Return (expanded, res), st1) ->
  (statusCode res =? 204)%Z && bool_decide (method expanded = Some "DELETE") = false ->
  first_error R res error ->
  prop error "code" = Some (VStr "InternalFailure") ->
  use_sandbox (_options (sess st1)) = true ->
  exists e,
    callAPI R (S fuel) rp st = (Throw e, st1)
    /\ exn_code e = VStr "INVALID_SANDBOX_PARAMETERS".
Proof.
  intros Hsend Hd He Hc Hsb. eexists. split.
  - rewrite callAPI_S, (bind_Return _ _ _ _ _ Hsend).
    rewrite (callAPI_interpret_error _ _ _ _ _ _ Hd He Hc). simpl.
    rewrite Hsb, !andb_false_r. reflexivity.
  - reflexivity.
Qed.

(** X22.  An error response that is neither retried nor a sandbox failure ends
    the call with a [CustomError] made of the first entry of its error list.
    That is every response but these: status 403 with the code "Unauthorized"
    and auto-refresh on, when the details or the message report an expired
    token; status 429 with the code "QuotaExceeded" and the retry of throttled
    calls on; the code "InternalFailure" in sandbox mode. *)
Theorem callAPI_throws_first_error fuel rp st expanded res st1 error code :
  callAPI_send R rp st = (Return (expanded, res), st1) ->
  (statusCode res =? 204)%Z && bool_decide (method expanded = Some "DELETE") = false ->
  first_error R res error -> prop error "code" = Some code ->
  statusCode res <> 403 \/ code <> VStr "Unauthorized"
  \/ auto_request_tokens (_options (sess st1)) = false
  \/ (exists details message,
         prop error "details" = Some details /\ Re.access_token_expired details = false
         /\ prop error "message" = Some message
         /\ Re.security_token_expired message = false) ->
  statusCode res <> 429 \/ code <> VStr "QuotaExceeded"
  \/ auto_request_throttled (_options (sess st1)) = false ->
  code <> VStr "InternalFailure" \/ use_sandbox (_options (sess st1)) = false ->
  callAPI R (S fuel) rp st = (Throw (CustomError error), st1).
Proof.
  intros Hsend Hd He Hc H403 H429 Hsb.
  rewrite callAPI_S, (bind_Return _ _ _ _ _ Hsend).
  rewrite (callAPI_interpret_error _ _ _ _ _ _ Hd He Hc).
  assert (is_str code "InternalFailure" && use_sandbox (_options (sess st1)) = false)
    as ->.
  { destruct Hsb as [H | ->]; [by rewrite is_str_false | by rewrite andb_false_r]. }
  assert ((statusCode res =? 429)%Z && is_str code "QuotaExceeded"
          && auto_request_throttled (_options (sess st1)) = false) as ->.
  { destruct H429 as [H | [H | ->]]; [| | by rewrite andb_false_r].
    - by destruct (Z.eqb_spec (statusCode res) 429).
    - by rewrite is_str_false, andb_false_r. }
  destruct H403 as [H | [H | [-> | (details & message & Hdt & Hdf & Hm & Hmf)]]].
  - by destruct (Z.eqb_spec (statusCode res) 403).
  - by rewrite is_str_false, andb_false_r.
  - by destruct ((statusCode res =? 403)%Z && is_str code "Unauthorized").
  - destruct ((statusCode res =? 403)%Z && is_str code "Unauthorized"); [| done].
    destruct (auto_request_tokens (_options (sess st1))); [| done].
    munfold. rewrite Hdt. simpl. rewrite Hdf, Hm. simpl. by rewrite Hmf.
Qed.

(** X23.  A body without an error list and without a payload is returned
    whole, as it was parsed, with its pagination section if it has one. *)
Theorem callAPI_returns_body_without_payload fuel rp st expanded res st1 json_res payload :
  callAPI_send R rp st = (Return (expanded, res), st1) ->
  succeeds R expanded res json_res ->
  prop json_res "payload" = Some payload -> truthy payload = false ->
  callAPI R (S fuel) rp st = (Return json_res, st1).
Proof.
  intros Hsend (Hd & Hp & errors & He & Te) Hpl Tpl.
  rewrite callAPI_S, (bind_Return _ _ _ _ _ Hsend).
  unfold callAPI_interpret. rewrite Hd, Hp. munfold.
  rewrite He. simpl. rewrite Te.
  assert (exists pagination, prop json_res "pagination" = Some pagination) as [pg ->].
  { destruct json_res; simpl in *; try done; by eexists. }
  simpl. rewrite Hpl. simpl. by rewrite Tpl, andb_false_r.
Qed.

(** X24.  A body that is the JSON text null has no property to read: [callAPI]
    and [refreshAccessToken] end with the [TypeError] of the engine, and not
    with an error code of the client. *)
Theorem null_body_is_a_type_error :
  (forall fuel rp st expanded res st1,
      callAPI_send R rp st = (Return (expanded, res), st1) ->
      (statusCode res =? 204)%Z && bool_decide (method expanded = Some "DELETE") = false ->
      JSON_parse R (Re.strip_newlines (body res)) = Some VNull ->
      callAPI R (S fuel) rp st = (Throw TypeError, st1))
  /\ (forall scope st request_body res rest,
         _constructRefreshAccessTokenBody R scope st = (Return request_body, st) ->
         inbox (wld st) = Reply res :: rest ->
         JSON_parse R (body res) = Some VNull ->
         (refreshAccessToken R scope st).1 = Throw TypeError
         /\ sess (refreshAccessToken R scope st).2 = sess st).
Proof.
  split.
  - intros fuel rp st expanded res st1 Hsend Hd Hp.
    rewrite callAPI_S, (bind_Return _ _ _ _ _ Hsend).
    unfold callAPI_interpret. by rewrite Hd, Hp.
  - intros scope st request_body res rest Hbody Hin Hp.
    unfold refreshAccessToken. rewrite (bind_Return _ _ _ _ _ Hbody).
    munfold. unfold request. rewrite Hin. simpl. by rewrite Hp.
Qed.

End Call_errors.

(** ** Expired role credentials *)

Section Role_credentials_retry.

Context (R : Runtime).

Lemma keeps_role_credentials_refl st : keeps_role_credentials st st.
Proof. by intros _. Qed.

Lemma keeps_role_credentials_trans a b c :
  keeps_role_credentials a b -> keeps_role_credentials b c -> keeps_role_credentials a c.
Proof.
  unfold keeps_role_credentials. intros Hab Hbc Ha.
  rewrite <- (Hab Ha). apply Hbc. by rewrite (Hab Ha).
Qed.

Lemma keeps_role_credentials_same st st' :
  same_session st st' -> keeps_role_credentials st st'.
Proof. unfold same_session, keeps_role_credentials. intros Hs _. by rewrite Hs. Qed.

(** The validation asks for role credentials only when there are none. *)
Lemma keeps_role_credentials_validation scope :
  preserves keeps_role_credentials (_validateAccessTokenAndRoleCredentials R scope).
Proof.
  intros st Hrc. destruct (auto_request_tokens (_options (sess st))) eqn:Hauto.
  - rewrite validation_with_auto_refresh by done. munfold. rewrite Hrc.
    destruct (_tokenExists (sess st) scope); simpl; [done |].
    pose proof (refreshAccessToken_session R scope st) as H.
    destruct (refreshAccessToken R scope st) as [[[] | | | |] st1]; simpl;
      try (by rewrite H).
    destruct H as (res & tok & _ & _ & ->). apply _role_credentials_store_token.
  - unfold _validateAccessTokenAndRoleCredentials. munfold. rewrite Hauto. simpl.
    by destruct (negb _ || negb _).
Qed.

Lemma keeps_role_credentials_callAPI_send req_params :
  preserves keeps_role_credentials (callAPI_send R req_params).
Proof.
  apply preserves_callAPI_send_with;
    eauto using keeps_role_credentials_refl, keeps_role_credentials_trans,
      keeps_role_credentials_validation.
  intros rq st. apply keeps_role_credentials_same, same_session_request.
Qed.

(** X25.  When the first response has status 403 and its first error has the
    code "Unauthorized", details that do not report an expired access token
    and a message that matches "security token ... expired", with auto-refresh
    on, [callAPI] refreshes the role credentials and then calls itself with
    the expanded request parameters. When the refresh succeeds and the
    response to the second call carries a payload, [callAPI] returns that
    payload, and the role credentials of the session are the ones that the
    refresh stored. *)
Theorem callAPI_refreshes_expired_role_credentials
    fuel req_params st expanded res st1 error details message :
  callAPI_send R req_params st = (Return (expanded, res), st1) ->
  statusCode res = 403 -> first_error R res error ->
  prop error "code" = Some (VStr "Unauthorized") ->
  prop error "details" = Some details -> Re.access_token_expired details = false ->
  prop error "message" = Some message -> Re.security_token_expired message = true ->
  auto_request_tokens (_options (sess st1)) = true ->
  callAPI R (S fuel) req_params st
  = (refreshRoleCredentials R ≫= fun _ => callAPI R fuel expanded) st1
  /\ forall st2 expanded' res' st3 payload,
      refreshRoleCredentials R st1 = (Return tt, st2) ->
      callAPI_send R expanded st2 = (Return (expanded', res'), st3) ->
      carries_payload R expanded' res' payload ->
      callAPI R (S (S fuel)) req_params st = (Return payload, st3)
      /\ truthy (_role_credentials (sess st2)) = true
      /\ _role_credentials (sess st3) = _role_credentials (sess st2).
Proof.
  intros Hsend Hs He Hc Hd Hdf Hm Hmt Ha.
  assert (forall n, callAPI R (S n) req_params st
                    = (refreshRoleCredentials R ≫= fun _ => callAPI R n expanded) st1)
    as Hlaw.
  { intros n. rewrite callAPI_S, (bind_Return _ _ _ _ _ Hsend).
    assert ((statusCode res =? 204)%Z && bool_decide (method expanded = Some "DELETE")
            = false) as Hdel by (by rewrite Hs).
    rewrite (callAPI_interpret_error R _ _ _ _ _ _ Hdel He Hc).
    rewrite Hs, Ha. munfold. rewrite Hd. simpl. rewrite Hdf, Hm. simpl. by rewrite Hmt. }
  split; [apply Hlaw |].
  intros st2 expanded' res' st3 payload Hrefresh Hsend' Hp.
  split.
  { rewrite Hlaw, (bind_Return _ _ _ _ _ Hrefresh), callAPI_S.
    rewrite (bind_Return _ _ _ _ _ Hsend').
    by apply callAPI_interpret_payload. }
  pose proof (refreshRoleCredentials_session R st1) as H.
  rewrite Hrefresh in H. destruct H as (id & secret & tok & Hsess).
  assert (truthy (_role_credentials (sess st2)) = true) as Hrc by (by rewrite Hsess).
  split; [done |].
  pose proof (keeps_role_credentials_callAPI_send expanded st2) as Hk.
  rewrite Hsend' in Hk. by apply Hk.
Qed.

End Role_credentials_retry.

(** ** With the automatic retries switched off *)

Section Without_retries.

Context (R : Runtime).





End Without_retries.

(** ** The retries of [callAPI] come to an end *)

Section Progress.

Context (R : Runtime) (n : nat).

Lemma ends_within_pure {A} (m : M A) :
  (forall st, (m st).2 = st /\ (m st).1 <> OutOfFuel) -> ends_within n m.
Proof. intros H st Hn. destruct (H st) as [-> ?]. done. Qed.

Lemma ends_within_ret {A} (a : A) : ends_within n (mret a).
Proof. by apply ends_within_pure. Qed.

Lemma ends_within_throw {A} e : ends_within n (@throw A e).
Proof. by apply ends_within_pure. Qed.

Lemma ends_within_not_modelled {A} : ends_within n (@not_modelled A).
Proof. by apply ends_within_pure. Qed.

Lemma ends_within_get_session : ends_within n get_session.
Proof. by apply ends_within_pure. Qed.

Lemma ends_within_get_prop v k : ends_within n (get_prop v k).
Proof. apply ends_within_pure. intros st. unfold get_prop. by destruct (prop v k). Qed.

Lemma ends_within_get_index v i : ends_within n (get_index v i).
Proof. apply ends_within_pure. intros st. unfold get_index. by destruct (index v i). Qed.

Lemma ends_within_and_prop v k : ends_within n (and_prop v k).
Proof.
  unfold and_prop. destruct (truthy v); [apply ends_within_get_prop | apply ends_within_ret].
Qed.

Lemma ends_within_emit ev : ends_within n (emit ev).
Proof. by intros st Hn. Qed.

Lemma ends_within_update_session f : ends_within n (update_session f).
Proof. by intros st Hn. Qed.

Lemma ends_within_request rq : ends_within n (request rq).
Proof.
  intros st Hn. unfold request.
  destruct (inbox (wld st)) as [| [res | reason] rest]; simpl in *; split; try done; lia.
Qed.

Lemma ends_within_bind {A B} (m : M A) (k : A -> M B) :
  ends_within n m -> (forall a, ends_within n (k a)) -> ends_within n (m ≫= k).
Proof.
  intros Hm Hk st Hn. destruct (Hm st Hn) as [Hne Hlen]. munfold.
  destruct (m st) as [[a | | | |] st1]; simpl in *; try done.
  by apply Hk.
Qed.

Ltac ends_step :=
  first
    [ solve [auto 1 with nocore]
    | apply ends_within_ret | apply ends_within_throw | apply ends_within_not_modelled
    | apply ends_within_get_session | apply ends_within_get_prop
    | apply ends_within_get_index | apply ends_within_and_prop
    | apply ends_within_emit | apply ends_within_update_session
    | apply ends_within_request
    | apply ends_within_bind; [| intros]
    | match goal with
      | |- ends_within _ (match ?x with _ => _ end) => destruct x
      | |- ends_within _ (if ?b then _ else _) => destruct b
      end ].
Ltac ends := repeat ends_step.

Lemma ends_within_refreshAccessToken scope : ends_within n (refreshAccessToken R scope).
Proof. unfold refreshAccessToken, _constructRefreshAccessTokenBody. ends. Qed.

Lemma ends_within_refreshRoleCredentials : ends_within n (refreshRoleCredentials R).
Proof. unfold refreshRoleCredentials. ends. Qed.

Lemma ends_within_callAPI_send req_params : ends_within n (callAPI_send R req_params).
Proof.
  pose proof ends_within_refreshAccessToken. pose proof ends_within_refreshRoleCredentials.
  unfold callAPI_send, _validateOperation, _validateOperationAllowance,
    _validateAccessTokenAndRoleCredentials.
  ends.
Qed.

Lemma ends_within_callAPI_interpret self req_params res :
  (forall rp, ends_within n (self rp)) ->
  ends_within n (callAPI_interpret R self req_params res).
Proof.
  intros Hself.
  pose proof ends_within_refreshAccessToken. pose proof ends_within_refreshRoleCredentials.
  unfold callAPI_interpret, _wait. ends.
Qed.

End Progress.

Section Termination.

Context (R : Runtime).

Lemma inbox_shrinks_refl st : inbox_shrinks st st.
Proof. unfold inbox_shrinks. lia. Qed.

Lemma inbox_shrinks_trans a b c : inbox_shrinks a b -> inbox_shrinks b c -> inbox_shrinks a c.
Proof. unfold inbox_shrinks. lia. Qed.

Lemma inbox_shrinks_request rq : preserves inbox_shrinks (request rq).
Proof.
  intros st. unfold inbox_shrinks, request.
  destruct (inbox (wld st)) as [| [] ?]; simpl; lia.
Qed.

Lemma inbox_shrinks_emit ev : preserves inbox_shrinks (emit ev).
Proof. intros st. unfold inbox_shrinks. simpl. lia. Qed.

Lemma inbox_shrinks_update f : preserves inbox_shrinks (update_session f).
Proof. intros st. unfold inbox_shrinks. simpl. lia. Qed.

Lemma inbox_shrinks_callAPI fuel req_params :
  preserves inbox_shrinks (callAPI R fuel req_params).
Proof.
  apply preserves_callAPI;
    eauto using inbox_shrinks_refl, inbox_shrinks_trans, inbox_shrinks_request,
      inbox_shrinks_emit.
  - intros scope. apply preserves_refreshAccessToken;
      eauto using inbox_shrinks_refl, inbox_shrinks_trans, inbox_shrinks_request,
        inbox_shrinks_update.
  - apply preserves_refreshRoleCredentials;
      eauto using inbox_shrinks_refl, inbox_shrinks_trans, inbox_shrinks_request,
        inbox_shrinks_update.
Qed.

(** Of the responses to come, the first half of [callAPI] takes at least
    one when it returns: the answer to its own request. *)
Lemma callAPI_send_takes_a_response req_params st r st1 :
  callAPI_send R req_params st = (Return r, st1) ->
  (S (length (inbox (wld st1))) <= length (inbox (wld st)))%nat.
Proof.
  intros Hsend.
  assert (exists st0 rq res,
             inbox_shrinks st st0 /\ request rq st0 = (Return res, st1))
    as (st0 & rq & res & Hle & Hreq).
  { unfold callAPI_send in Hsend.
    apply bind_Return_inv in Hsend as ([] & sta & Ha & H).
    destruct (operations R (default "" (operation req_params))) as [expand |]; [| done].
    apply bind_Return_inv in H as ([] & stb & Hb & H).
    apply bind_Return_inv in H as ([] & stc & Hc & H).
    apply bind_Return_inv in H as (this & st4 & Hget & H).
    unfold get_session in Hget. injection Hget as <- <-.
    apply bind_Return_inv in H as (res & st5 & Hreq & H).
    injection H as <- <-. eexists stc, _, res. split; [| exact Hreq].
    pose proof (preserves__validateOperation R inbox_shrinks inbox_shrinks_refl
                  (operation req_params) st) as H1.
    pose proof (preserves__validateOperationAllowance inbox_shrinks inbox_shrinks_refl
                  inbox_shrinks_trans (scope (expand req_params)) sta) as H2.
    assert (inbox_shrinks stb stc) as H3.
    { pose proof (preserves__validateAccessTokenAndRoleCredentials R inbox_shrinks
                    inbox_shrinks_refl inbox_shrinks_trans) as Hp.
      specialize (Hp (fun scope =>
                        preserves_refreshAccessToken R inbox_shrinks inbox_shrinks_refl
                          inbox_shrinks_trans inbox_shrinks_request scope
                          inbox_shrinks_update)
                     (preserves_refreshRoleCredentials R inbox_shrinks inbox_shrinks_refl
                        inbox_shrinks_trans inbox_shrinks_request inbox_shrinks_update)
                     (scope (expand req_params)) stb).
      by rewrite Hc in Hp. }
    rewrite Ha in H1. rewrite Hb in H2.
    eauto using inbox_shrinks_trans. }
  unfold inbox_shrinks in Hle. unfold request in Hreq.
  destruct (inbox (wld st0)) as [| [res0 | reason] rest] eqn:Hin; try discriminate.
  injection Hreq as _ <-. simpl in *. lia.
Qed.

Lemma ends_within_callAPI fuel req_params : ends_within fuel (callAPI R fuel req_params).
Proof.
  revert req_params. induction fuel as [| fuel IH]; intros req_params st Hn; [lia |].
  rewrite callAPI_S. munfold.
  pose proof (ends_within_callAPI_send R (S fuel) req_params st Hn) as [Hout Hlen].
  destruct (callAPI_send R req_params st) as [[[expanded res] | | | |] st1] eqn:Hsend;
    try done.
  apply callAPI_send_takes_a_response in Hsend.
  destruct (ends_within_callAPI_interpret R fuel (callAPI R fuel) expanded res IH st1)
    as [Hout' Hlen']; [lia |].
  split; [done | lia].
Qed.

(** X27.  Every invocation of [callAPI] that goes on to a retry has taken a
    response first. So with more invocations allowed than there are responses
    to come, [callAPI] does not stop for want of invocations: it returns,
    throws, or waits for a response that does not arrive; and it leaves no
    more responses than it found. *)
Theorem callAPI_ends_within_its_responses fuel req_params st :
  (length (inbox (wld st)) < fuel)%nat ->
  (callAPI R fuel req_params st).1 <> OutOfFuel
  /\ (length (inbox (wld (callAPI R fuel req_params st).2)) <= length (inbox (wld st)))%nat.
Proof.
  intros Hn. split.
  - by apply ends_within_callAPI.
  - apply inbox_shrinks_callAPI.
Qed.

End Termination.

(** ** The first call of an instance *)

Section First_call.

Context (R : Runtime).

(** X28.  An instance that holds neither an access token nor role credentials,
    with auto-refresh on, makes three requests on a call of an operation
    without scope, in this order: the refresh-token grant to the token
    endpoint, the request for role credentials, and the request of the
    operation, signed with the token and the credentials that the first two
    answers delivered. When the third answer carries a payload, [callAPI]
    returns it, and the getters give the new token and credentials. *)
Theorem callAPI_requests_token_and_role_credentials_first
    fuel req_params st expand app_client id secret aws_user
    token_res tok sts_res credentials api_res payload rest :
  truthy_str (operation req_params) = true ->
  operations R (default "" (operation req_params)) = Some expand ->
  truthy_str (scope (expand req_params)) = false ->
  only_grantless_operations (_options (sess st)) = false ->
  auto_request_tokens (_options (sess st)) = true ->
  truthy (_access_token (sess st)) = false ->
  truthy (_role_credentials (sess st)) = false ->
  prop (_credentials (sess st)) "app_client" = Some app_client ->
  prop app_client "id" = Some id -> prop app_client "secret" = Some secret ->
  prop (_credentials (sess st)) "aws_user" = Some aws_user ->
  inbox (wld st) = Reply token_res :: Reply sts_res :: Reply api_res :: rest ->
  grants R token_res tok -> delivers R sts_res credentials ->
  carries_payload R (expand req_params) api_res payload ->
  exists st' key_id key_secret session_token,
    callAPI R (S fuel) req_params st = (Return payload, st')
    /\ prop credentials "AccessKeyId" = Some key_id
    /\ prop credentials "SecretAccessKey" = Some key_secret
    /\ prop credentials "SessionToken" = Some session_token
    /\ access_token (sess st') = tok
    /\ role_credentials (sess st')
       = VObj [("id", key_id); ("secret", key_secret); ("security_token", session_token)]
    /\ inbox (wld st') = rest
    /\ log (wld st')
       = log (wld st)
         ++ [EvRequest
               (token_request
                  (JSON_stringify R
                     (VObj [("client_id", id); ("client_secret", secret);
                            ("grant_type", VStr "refresh_token");
                            ("refresh_token", _refresh_token (sess st))])));
             EvRequest (signRoleCredentialsRequest R (_region (sess st)) aws_user);
             EvRequest
               (signAPIRequest R (_region (sess st)) (use_sandbox (_options (sess st)))
                  tok
                  (VObj [("id", key_id); ("secret", key_secret);
                         ("security_token", session_token)])
                  (expand req_params))].
Proof.
  intros Hop Hcat Hs Hog Hauto Hat Hrc Hac Hid Hsec Hu Hin Hgrant Hdeliver Hpayload.
  set (scope0 := scope (expand req_params)) in *.
  set (request_body :=
         JSON_stringify R
           (VObj [("client_id", id); ("client_secret", secret);
                  ("grant_type", VStr "refresh_token");
                  ("refresh_token", _refresh_token (sess st))])).
  assert (_constructRefreshAccessTokenBody R scope0 st = (Return request_body, st))
    as Hbody.
  { rewrite (_constructRefreshAccessTokenBody_eq R scope0 st _ _ _ Hac Hid Hsec).
    by rewrite Hs, Hog. }
  set (st_a := {| sess := store_token scope0 tok (sess st);
                  wld := wld (answered (token_request request_body)
                                (Reply sts_res :: Reply api_res :: rest) st) |}).
  pose proof (refreshAccessToken_Return R scope0 st request_body token_res _ tok
                Hbody Hin Hgrant) as Htoken. fold st_a in Htoken.
  assert (sess st_a = set_access_token tok (sess st)) as Hsa.
  { unfold st_a, store_token. simpl. by rewrite Hs. }
  destruct (refreshRoleCredentials_Return R st_a aws_user sts_res (Reply api_res :: rest)
              credentials)
    as (key_id & key_secret & session_token & Hk & Hks & Hst & Hrole);
    [by rewrite Hsa | done | done |].
  set (role := VObj [("id", key_id); ("secret", key_secret);
                     ("security_token", session_token)]) in *.
  set (st_b := {| sess := set_role_credentials role (sess st_a);
                  wld := wld (answered
                                (signRoleCredentialsRequest R (_region (sess st_a)) aws_user)
                                (Reply api_res :: rest) st_a) |}) in *.
  assert (_validateAccessTokenAndRoleCredentials R scope0 st = (Return tt, st_b)) as Hv.
  { rewrite validation_with_auto_refresh by done.
    assert (_tokenExists (sess st) scope0 = false) as ->.
    { unfold _tokenExists. by rewrite Hat, Hs. }
    by rewrite (bind_Return _ _ _ _ _ Htoken), Hrc. }
  set (signed := signAPIRequest R (_region (sess st)) (use_sandbox (_options (sess st)))
                   tok role (expand req_params)).
  assert (callAPI_send R req_params st
          = (Return (expand req_params, api_res), answered signed rest st_b)) as Hsend.
  { unfold callAPI_send, _validateOperation, _validateOperationAllowance.
    rewrite Hop, Hcat. munfold. simpl. fold scope0. rewrite Hog. simpl.
    rewrite Hv. unfold answered, st_b, st_a, signed, token_for_request, store_token.
    simpl. rewrite Hs. reflexivity. }
  exists (answered signed rest st_b), key_id, key_secret, session_token.
  split.
  { rewrite callAPI_S, (bind_Return _ _ _ _ _ Hsend).
    by apply callAPI_interpret_payload. }
  repeat (split; [done |]).
  unfold answered, st_b, st_a, signed, store_token, role. simpl. rewrite Hs. simpl.
  split; [done |]. split; [done |]. split; [done |].
  by rewrite <- !app_assoc.
Qed.

(** X29.  The first call of a grantless operation, one whose catalog entry
    gives it a scope, by an instance that holds role credentials and no token
    of that scope: the token endpoint is asked for a client-credentials grant
    of the scope (the refresh token is not sent), the granted token is kept
    under the scope, and the request of the operation is signed with it. The
    access token of the instance plays no part and stays what it is. *)
Theorem callAPI_requests_grantless_token_first
    fuel req_params st expand s app_client id secret token_res tok api_res payload rest :
  truthy_str (operation req_params) = true ->
  operations R (default "" (operation req_params)) = Some expand ->
  scope (expand req_params) = Some s -> s ∈ valid_scopes ->
  auto_request_tokens (_options (sess st)) = true ->
  _grantless_tokens (sess st) !! s = None ->
  truthy (_role_credentials (sess st)) = true ->
  prop (_credentials (sess st)) "app_client" = Some app_client ->
  prop app_client "id" = Some id -> prop app_client "secret" = Some secret ->
  inbox (wld st) = Reply token_res :: Reply api_res :: rest ->
  grants R token_res tok ->
  carries_payload R (expand req_params) api_res payload ->
  exists st',
    callAPI R (S fuel) req_params st = (Return payload, st')
    /\ _grantless_tokens (sess st') !! s = Some tok
    /\ access_token (sess st') = access_token (sess st)
    /\ role_credentials (sess st') = role_credentials (sess st)
    /\ inbox (wld st') = rest
    /\ log (wld st')
       = log (wld st)
         ++ [EvRequest
               (token_request
                  (JSON_stringify R
                     (VObj [("client_id", id); ("client_secret", secret);
                            ("grant_type", VStr "client_credentials");
                            ("scope", VStr s)])));
             EvRequest
               (signAPIRequest R (_region (sess st)) (use_sandbox (_options (sess st)))
                  tok (_role_credentials (sess st)) (expand req_params))].
Proof.
  intros Hop Hcat Hscope Hvalid Hauto Hnone Hrc Hac Hid Hsec Hin Hgrant Hpayload.
  assert (truthy_str (Some s) = true
          /\ existsb (String.eqb s) valid_scopes = true
          /\ Object_prototype s = None) as (Hs & Hex & Hproto).
  { unfold valid_scopes in Hvalid. rewrite !elem_of_cons, elem_of_nil in Hvalid.
    destruct Hvalid as [-> | [-> | []]]; by repeat split. }
  set (request_body :=
         JSON_stringify R
           (VObj [("client_id", id); ("client_secret", secret);
                  ("grant_type", VStr "client_credentials"); ("scope", VStr s)])).
  assert (_constructRefreshAccessTokenBody R (Some s) st = (Return request_body, st))
    as Hbody.
  { rewrite (_constructRefreshAccessTokenBody_eq R (Some s) st _ _ _ Hac Hid Hsec).
    rewrite Hs. change (default "" (Some s)) with s. by rewrite Hex. }
  pose proof (refreshAccessToken_Return R (Some s) st request_body token_res _ tok
                Hbody Hin Hgrant) as Htoken.
  assert (store_token (Some s) tok (sess st) = set_grantless_token s tok (sess st))
    as Hstore by (unfold store_token; by rewrite Hs).
  rewrite Hstore in Htoken.
  set (st_a := {| sess := set_grantless_token s tok (sess st);
                  wld := wld (answered (token_request request_body)
                                (Reply api_res :: rest) st) |}) in *.
  assert (_validateAccessTokenAndRoleCredentials R (Some s) st = (Return tt, st_a)) as Hv.
  { rewrite validation_with_auto_refresh by done.
    assert (_tokenExists (sess st) (Some s) = false) as ->.
    { unfold _tokenExists, grantless_token. change (default "" (Some s)) with s.
      by rewrite Hs, Hnone, Hproto, andb_false_r. }
    by rewrite (bind_Return _ _ _ _ _ Htoken), Hrc. }
  set (signed := signAPIRequest R (_region (sess st)) (use_sandbox (_options (sess st)))
                   tok (_role_credentials (sess st)) (expand req_params)).
  assert (callAPI_send R req_params st
          = (Return (expand req_params, api_res), answered signed rest st_a)) as Hsend.
  { unfold callAPI_send, _validateOperation, _validateOperationAllowance.
    rewrite Hop, Hcat. munfold. simpl. rewrite Hscope, Hs, andb_false_r, Hv.
    unfold answered, st_a, signed, token_for_request, grantless_token.
    rewrite Hs. simpl. by rewrite lookup_insert_eq. }
  exists (answered signed rest st_a).
  split.
  { rewrite callAPI_S, (bind_Return _ _ _ _ _ Hsend).
    by apply callAPI_interpret_payload. }
  unfold answered, st_a, signed. simpl.
  split; [by rewrite lookup_insert_eq |]. repeat (split; [done |]).
  by rewrite <- !app_assoc.
Qed.

End First_call.

(** * The properties on the example runtime *)

Section Examples.

Import Example.





(** The client on a few inputs. *)

Example expired_details_match :
  Re.access_token_expired (VStr "The access token you provided has expired.") = true.
Proof. reflexivity. Qed.

Example expired_pattern_is_case_sensitive :
  Re.access_token_expired (VStr "Access token has expired") = false.
Proof. reflexivity. Qed.

Example expired_pattern_stops_at_line_end :
  Re.access_token_expired (VStr ("access token" +:+ String "010"%char "expired")) = false.
Proof. reflexivity. Qed.

Example latin1_alias :
  _readFile api_runtime feed_file "text/xml; charset=iso-8859-1" (start ready_session [])
  = (Return feed_text, {| sess := ready_session;
                          wld := {| inbox := []; log := [EvReadFile feed_file "latin1"] |} |}).
Proof. reflexivity. Qed.

Example delete_without_content :
  (callAPI notifications_runtime 1 (call "deleteSubscriptionById")
     (start ready_session [json_reply 200 body_token; json_reply 204 ""])).1
  = Return (VObj [("success", VBool true)]).
Proof. reflexivity. Qed.

Example grantless_token_goes_under_its_scope :
  let st := (callAPI notifications_runtime 1 (call "getSubscription")
               (start ready_session [json_reply 200 body_token; json_reply 200 body_ok])).2 in
  _grantless_tokens (sess st) !! "sellingpartnerapi::notifications"
  = Some (VStr "fresh-token")
  /\ _access_token (sess st) = VStr "stale-token".
Proof. split; vm_compute; reflexivity. Qed.

Example expiry_is_read_from_the_details :
  callAPI api_runtime 2 call_getOrders
    (start ready_session [json_reply 403 body_denied; json_reply 200 body_token])
  = (Throw (CustomError denied_error),
     (callAPI_send api_runtime call_getOrders
        (start ready_session [json_reply 403 body_denied; json_reply 200 body_token])).2).
Proof. reflexivity. Qed.

Example inherited_member_reads_as_a_token :
  _tokenExists ready_session (Some "constructor") = true
  /\ _tokenExists ready_session (Some "sellingpartnerapi::notifications") = false.
Proof. split; reflexivity. Qed.

Example assign_keeps_the_order_of_the_target :
  Object_assign (VObj [("a", VNum 1); ("b", VNum 2)]) (VObj [("b", VNum 3); ("c", VNum 4)])
  = Some (VObj [("a", VNum 1); ("b", VNum 3); ("c", VNum 4)]).
Proof. reflexivity. Qed.



(** C6 as stated fails: this descriptor names the standard "DES", and
    [download] throws DOWNLOAD_INFORMATION_MISSING, because the descriptor
    has no URL. *)
Lemma download_without_url_counterexample :
  exists enc e,
    prop des_without_url "encryptionDetails" = Some enc
    /\ prop enc "standard" = Some (VStr "DES")
    /\ download api_runtime des_without_url no_options (start ready_session [ok_reply])
       = (Throw e, start ready_session [ok_reply])
    /\ exn_code e = VStr "DOWNLOAD_INFORMATION_MISSING".
Proof. eexists _, _. repeat split. Qed.

(** C6, amended, on the example: the same standard with a URL. *)
Lemma download_rejects_encryption_standard_witness :
  download api_runtime des_with_url no_options (start ready_session [ok_reply])
  = (Throw (custom "UNKNOWN_ENCRYPTION_STANDARD"
              (VStr "Cannot decrypt DES, expecting AES")),
     start ready_session [ok_reply]).
Proof.
  eapply (download_rejects_encryption_standard api_runtime des_with_url no_options
            (start ready_session [ok_reply]) _ _ (VStr "DES"));
    [reflexivity | reflexivity | reflexivity | reflexivity | reflexivity | discriminate].
Defined.








(** The further properties on the example runtimes. *)

(** A configuration for "eu" without a refresh token. *)
Lemma constructor_requires_refresh_token_witness :
  exists message,
    constructor api_runtime no_refresh_token_config
    = Throw (custom "NO_REFRESH_TOKEN_PROVIDED" message).
Proof.
  apply (constructor_requires_refresh_token api_runtime no_refresh_token_config
           app_credentials).
  - reflexivity.
  - compute_done.
  - reflexivity.
  - discriminate.
Defined.

(** The same configuration with a refresh token. *)
Lemma constructor_returns_witness :
  exists this,
    constructor api_runtime eu_config = Return this
    /\ access_token this = VUndef
    /\ _tokenExists this (Some "sellingpartnerapi::notifications") = false
    /\ _options this = default_options.
Proof.
  destruct (constructor_returns api_runtime eu_config app_credentials)
    as (this & Hthis & Hat & _ & _ & Hscopes & _ & _ & Hdefault).
  - reflexivity.
  - compute_done.
  - by left.
  - exists this. split; [exact Hthis |]. split; [exact Hat |].
    split; [apply Hscopes; compute_done | exact (Hdefault eq_refl)].
Defined.

(** A descriptor that has a URL and nothing else. *)
Lemma transfer_requires_encryption_details_witness :
  download api_runtime url_only_details no_options (start ready_session [ok_reply])
  = (Throw (custom "DOWNLOAD_INFORMATION_MISSING"
              (VStr "Please provide encryptionDetails and url")),
     start ready_session [ok_reply])
  /\ upload api_runtime url_only_details (Some text_feed) (start ready_session [ok_reply])
     = (Throw (custom "DOWNLOAD_INFORMATION_MISSING"
                 (VStr "Please provide encryptionDetails and url")),
        start ready_session [ok_reply]).
Proof.
  apply (transfer_requires_encryption_details_and_url api_runtime url_only_details
           no_options (Some text_feed) (start ready_session [ok_reply])).
  right. left. exists VUndef. split; reflexivity.
Defined.

(** A descriptor that declares the compression "ZIP". *)
Lemma transfer_rejects_compression_witness :
  download api_runtime zip_details no_options (start ready_session [ok_reply])
  = (Throw (custom "UNKNOWN_ZIP_STANDARD" (VStr "Cannot unzip ZIP, expecting GZIP")),
     start ready_session [ok_reply])
  /\ upload api_runtime zip_details (Some text_feed) (start ready_session [ok_reply])
     = (Throw (custom "UNKNOWN_ZIP_STANDARD" (VStr "Cannot unzip ZIP, expecting GZIP")),
        start ready_session [ok_reply]).
Proof.
  eapply (transfer_rejects_compression api_runtime zip_details _ _ (VStr "ZIP")
            no_options (Some text_feed) (start ready_session [ok_reply]));
    [reflexivity | reflexivity | reflexivity | reflexivity | reflexivity | reflexivity
    | reflexivity | discriminate].
Defined.

(** A feed with content and without a content type. *)
Lemma upload_checks_feed_witness :
  exists e,
    upload api_runtime feed_details
      (Some {| content := Some feed_text; file := None; contentType := None |})
      (start ready_session [ok_reply])
    = (Throw e, start ready_session [ok_reply])
    /\ exn_code e = VStr "NO_FEED_CONTENT_TYPE_PROVIDED".
Proof.
  destruct (upload_checks_feed api_runtime feed_details (start ready_session [ok_reply])
              eq_refl) as (_ & _ & Htype).
  apply Htype; [by left | reflexivity].
Defined.

(** The storage service answers with a gateway error: the download ends
    with DOWNLOAD_ERROR right after its request, and the file named in the
    options is not written. *)
Lemma download_fails_unless_200_witness :
  download service_runtime feed_details
    {| opt_json := false; opt_unzip := None; opt_file := Some report_file;
       opt_charset := None |}
    (start ready_session [gateway_reply])
  = (Throw (custom "DOWNLOAD_ERROR" (VStr body_gateway)),
     {| sess := ready_session;
        wld := {| inbox := [];
                  log := [EvRequest {| rq_method := None; rq_url := VStr document_url;
                                       rq_headers := []; rq_body := NoBody |}] |} |}).
Proof.
  destruct (download_fails_unless_200 service_runtime feed_details
              {| opt_json := false; opt_unzip := None; opt_file := Some report_file;
                 opt_charset := None |}
              (start ready_session [gateway_reply])
              {| statusCode := 502; body := body_gateway; chunks := []; headers := [] |} [])
    as (err & url & Hurl & Hdownload & Hnone);
    [reflexivity | reflexivity | discriminate |].
  rewrite Hdownload, (Hnone eq_refl). injection Hurl as <-. reflexivity.
Defined.

(** The same download refused by the storage service with an error
    document: the code and the message are those of the document. *)
Example storage_error_code :
  (download service_runtime feed_details no_options (start ready_session [denied_reply])).1
  = Throw (custom_v (VStr "AccessDenied") (VStr "Access Denied")).
Proof. reflexivity. Qed.

(** A feed with both content and a file. *)
Lemma upload_content_overrides_file_witness :
  upload api_runtime feed_details
    (Some {| content := Some feed_text; file := Some feed_file;
             contentType := Some "text/xml; charset=utf-8" |})
    (start ready_session [ok_reply])
  = upload api_runtime feed_details (Some text_feed) (start ready_session [ok_reply])
  /\ log_adds reads_no_file (start ready_session [ok_reply])
       (upload api_runtime feed_details
          (Some {| content := Some feed_text; file := Some feed_file;
                   contentType := Some "text/xml; charset=utf-8" |})
          (start ready_session [ok_reply])).2.
Proof.
  apply (upload_content_overrides_file api_runtime feed_details
           {| content := Some feed_text; file := Some feed_file;
              contentType := Some "text/xml; charset=utf-8" |}
           (start ready_session [ok_reply])).
  reflexivity.
Defined.

(** A call that is answered at once: the request was signed with the token
    and the role credentials of the session. *)
Lemma callAPI_signs_with_token_witness :
  exists l,
    log (wld (callAPI_send service_runtime call_getOrders
                (start ready_session [json_reply 200 body_ok])).2)
    = l ++ [EvRequest
              (sign_api (Some "eu") false (VStr "stale-token")
                 (_role_credentials ready_session) (getOrders call_getOrders))].
Proof.
  destruct (callAPI_signs_with_token_and_role_credentials service_runtime call_getOrders
              (start ready_session [json_reply 200 body_ok])
              (getOrders call_getOrders)
              {| statusCode := 200; body := body_ok; chunks := []; headers := [] |}
              (callAPI_send service_runtime call_getOrders
                 (start ready_session [json_reply 200 body_ok])).2 eq_refl)
    as (_ & _ & l & Hl).
  exists l. exact Hl.
Defined.


(** An instance for grantless operations only is asked for the orders. *)
Lemma callAPI_only_grantless_operations_witness :
  exists e,
    callAPI service_runtime 1 call_getOrders
      (start (with_options grantless_options ready_session) [json_reply 200 body_ok])
    = (Throw e,
       start (with_options grantless_options ready_session) [json_reply 200 body_ok])
    /\ exn_code e = VStr "INVALID_OPERATION_ERROR".
Proof.
  apply (callAPI_only_grantless_operations service_runtime 0 call_getOrders
           (start (with_options grantless_options ready_session)
              [json_reply 200 body_ok])
           getOrders);
    reflexivity.
Defined.

(** The gateway answers in place of the API. *)
Lemma callAPI_parses_all_but_delete_204_witness :
  callAPI service_runtime 1 call_getOrders (start ready_session [gateway_reply])
  = (Throw (custom "JSON_PARSE_ERROR" (VStr body_gateway)),
     (callAPI_send service_runtime call_getOrders
        (start ready_session [gateway_reply])).2).
Proof.
  destruct (callAPI_parses_all_but_delete_204 service_runtime 0 call_getOrders
              (start ready_session [gateway_reply])
              (getOrders call_getOrders)
              {| statusCode := 502; body := body_gateway; chunks := []; headers := [] |}
              (callAPI_send service_runtime call_getOrders
                 (start ready_session [gateway_reply])).2 eq_refl)
    as [_ Hparse].
  apply Hparse; [left; discriminate | reflexivity].
Defined.

(** An internal failure in sandbox mode, under the status of a throttled
    call. *)
Lemma callAPI_sandbox_internal_failure_witness :
  exists e,
    callAPI service_runtime 1 call_getOrders
      (start (with_options sandbox_options ready_session)
         [json_reply 429 body_internal_failure])
    = (Throw e,
       (callAPI_send service_runtime call_getOrders
          (start (with_options sandbox_options ready_session)
             [json_reply 429 body_internal_failure])).2)
    /\ exn_code e = VStr "INVALID_SANDBOX_PARAMETERS".
Proof.
  apply (callAPI_sandbox_internal_failure service_runtime 0 call_getOrders
           (start (with_options sandbox_options ready_session)
              [json_reply 429 body_internal_failure])
           (getOrders call_getOrders)
           {| statusCode := 429; body := body_internal_failure; chunks := [];
              headers := [] |}
           (callAPI_send service_runtime call_getOrders
              (start (with_options sandbox_options ready_session)
                 [json_reply 429 body_internal_failure])).2
           internal_failure_error).
  - reflexivity.
  - reflexivity.
  - exists parsed_internal_failure, (VArr [internal_failure_error]). repeat split.
  - reflexivity.
  - reflexivity.
Defined.

(** A bad request: the error of the response is what is thrown. *)
Lemma callAPI_throws_first_error_witness :
  callAPI service_runtime 1 call_getOrders
    (start ready_session [json_reply 400 body_invalid_input])
  = (Throw (CustomError invalid_input_error),
     (callAPI_send service_runtime call_getOrders
        (start ready_session [json_reply 400 body_invalid_input])).2).
Proof.
  apply (callAPI_throws_first_error service_runtime 0 call_getOrders
           (start ready_session [json_reply 400 body_invalid_input])
           (getOrders call_getOrders)
           {| statusCode := 400; body := body_invalid_input; chunks := []; headers := [] |}
           (callAPI_send service_runtime call_getOrders
              (start ready_session [json_reply 400 body_invalid_input])).2
           invalid_input_error (VStr "InvalidInput")).
  - reflexivity.
  - reflexivity.
  - exists parsed_invalid_input, (VArr [invalid_input_error]). repeat split.
  - reflexivity.
  - left. discriminate.
  - left. discriminate.
  - left. discriminate.
Defined.

(** A body without a payload section. *)
Lemma callAPI_returns_body_without_payload_witness :
  callAPI service_runtime 1 call_getOrders
    (start ready_session [json_reply 200 body_listing])
  = (Return parsed_listing,
     (callAPI_send service_runtime call_getOrders
        (start ready_session [json_reply 200 body_listing])).2).
Proof.
  apply (callAPI_returns_body_without_payload service_runtime 0 call_getOrders
           (start ready_session [json_reply 200 body_listing])
           (getOrders call_getOrders)
           {| statusCode := 200; body := body_listing; chunks := []; headers := [] |}
           (callAPI_send service_runtime call_getOrders
              (start ready_session [json_reply 200 body_listing])).2
           parsed_listing VUndef).
  - reflexivity.
  - repeat split. by exists VUndef.
  - reflexivity.
  - reflexivity.
Defined.

(** The security token has expired: the role credentials are requested
    again and the call is repeated with the new ones. *)
Lemma callAPI_refreshes_expired_role_credentials_witness :
  exists st',
    callAPI service_runtime 2 call_getOrders
      (start ready_session
         [json_reply 403 body_security_expired; json_reply 200 body_assume_role;
          json_reply 200 body_ok])
    = (Return (VObj [("ok", VBool true)]), st')
    /\ _role_credentials (sess st') = sts_role_credentials.
Proof.
  set (st := start ready_session
               [json_reply 403 body_security_expired; json_reply 200 body_assume_role;
                json_reply 200 body_ok]).
  set (st1 := (callAPI_send service_runtime call_getOrders st).2).
  set (st2 := (refreshRoleCredentials service_runtime st1).2).
  set (st3 := (callAPI_send service_runtime (getOrders call_getOrders) st2).2).
  destruct (callAPI_refreshes_expired_role_credentials service_runtime 0 call_getOrders
              st (getOrders call_getOrders)
              {| statusCode := 403; body := body_security_expired; chunks := [];
                 headers := [] |}
              st1 security_expired_error (VStr "")
              (VStr "The security token included in the request is expired"))
    as [_ Hretry].
  - reflexivity.
  - reflexivity.
  - exists parsed_security_expired, (VArr [security_expired_error]). repeat split.
  - reflexivity.
  - reflexivity.
  - reflexivity.
  - reflexivity.
  - reflexivity.
  - reflexivity.
  - destruct (Hretry st2 (getOrders call_getOrders)
                {| statusCode := 200; body := body_ok; chunks := []; headers := [] |}
                st3 (VObj [("ok", VBool true)]))
      as (Hret & _ & Hrole).
    + reflexivity.
    + reflexivity.
    + exists parsed_ok, VUndef. repeat split. by exists VUndef.
    + exists st3. split; [exact Hret |]. rewrite Hrole. reflexivity.
Defined.


(** Two responses are to come and three invocations are allowed. *)
Lemma callAPI_ends_within_its_responses_witness :
  (callAPI api_runtime 3 call_getOrders throttled_start).1 <> OutOfFuel
  /\ (length (inbox (wld (callAPI api_runtime 3 call_getOrders throttled_start).2))
      <= length (inbox (wld throttled_start)))%nat.
Proof.
  apply (callAPI_ends_within_its_responses api_runtime 3 call_getOrders throttled_start).
  simpl. lia.
Defined.

(** A scope that is none of the two grantless scopes. *)
Lemma refreshAccessToken_checks_scope_first_witness :
  exists e,
    refreshAccessToken api_runtime (Some "sellingpartnerapi::orders")
      (start ready_session [json_reply 200 body_token])
    = (Throw e, start ready_session [json_reply 200 body_token])
    /\ exn_code e = VStr "INVALID_SCOPE_ERROR".
Proof.
  destruct (refreshAccessToken_checks_scope_first api_runtime
              (Some "sellingpartnerapi::orders")
              (start ready_session [json_reply 200 body_token])
              (VObj [("id", VStr "client-id"); ("secret", VStr "client-secret")])
              (VStr "client-id") (VStr "client-secret") eq_refl eq_refl eq_refl)
    as [Hinvalid _].
  apply Hinvalid; [reflexivity | compute_done].
Defined.

(** The token endpoint grants "fresh-token". *)
Lemma refreshAccessToken_granted_witness :
  exists st',
    refreshAccessToken api_runtime None (start ready_session [json_reply 200 body_token])
    = (Return tt, st')
    /\ access_token (sess st') = VStr "fresh-token"
    /\ role_credentials (sess st') = role_credentials ready_session.
Proof.
  destruct (refreshAccessToken_granted api_runtime None
               (start ready_session [json_reply 200 body_token]) (stringify refresh_grant)
               {| statusCode := 200; body := body_token; chunks := []; headers := [] |}
               [] (VStr "fresh-token"))
    as (st' & Hreturn & _ & _ & Hat & Hrc).
  - reflexivity.
  - reflexivity.
  - exists parsed_token. repeat split.
  - exists st'. split; [exact Hreturn |]. split; [exact Hat | exact Hrc].
Defined.
(** The token endpoint refuses the grant. *)
Lemma refreshAccessToken_refused_witness :
  exists st',
    refreshAccessToken api_runtime None refused_start
    = (Throw (custom_v (VStr "invalid_grant")
                (VStr "The request has an invalid grant parameter")), st')
    /\ sess st' = sess refused_start.
Proof.
  destruct (refreshAccessToken_refused api_runtime None refused_start
               (stringify refresh_grant)
               {| statusCode := 400; body := body_invalid_grant; chunks := [];
                  headers := [] |} [])
    as [_ Herror]; [reflexivity | reflexivity |].
  destruct (Herror parsed_invalid_grant VUndef (VStr "invalid_grant")
              eq_refl eq_refl eq_refl eq_refl) as [Hthrow _].
  destruct (Hthrow eq_refl) as (description & Hd & Hrefused).
  injection Hd as <-. eexists. split; [exact Hrefused | reflexivity].
Defined.

(** The answer to the request for role credentials. *)
Lemma refreshRoleCredentials_outcome_witness :
  exists st',
    refreshRoleCredentials service_runtime
      (start fresh_session [json_reply 200 body_assume_role])
    = (Return tt, st')
    /\ role_credentials (sess st') = sts_role_credentials.
Proof.
  destruct (refreshRoleCredentials_outcome service_runtime
              (start fresh_session [json_reply 200 body_assume_role])
              (VObj [("id", VStr "aws-id"); ("secret", VStr "aws-secret");
                     ("role", VStr "role-arn")])
              {| statusCode := 200; body := body_assume_role; chunks := [];
                 headers := [] |} [] eq_refl eq_refl)
    as [[(id & secret & token & Hreturn) | (err & Hthrow)] _].
  - eexists. split; [exact Hreturn |].
    pose proof Hreturn as Hrun. vm_compute in Hrun. injection Hrun as <- <- <-.
    reflexivity.
  - discriminate Hthrow.
Defined.

(** The first call of an instance without token and role credentials. *)
Lemma callAPI_first_call_witness :
  exists st',
    callAPI service_runtime 1 call_getOrders
      (start fresh_session
         [json_reply 200 body_token; json_reply 200 body_assume_role;
          json_reply 200 body_ok])
    = (Return (VObj [("ok", VBool true)]), st')
    /\ access_token (sess st') = VStr "fresh-token"
    /\ role_credentials (sess st') = sts_role_credentials
    /\ log (wld st')
       = [EvRequest
            (token_request (stringify refresh_grant));
          EvRequest (sign_sts (Some "eu")
                       (VObj [("id", VStr "aws-id"); ("secret", VStr "aws-secret");
                              ("role", VStr "role-arn")]));
          EvRequest (sign_api (Some "eu") false (VStr "fresh-token") sts_role_credentials
                       (getOrders call_getOrders))].
Proof.
  destruct (callAPI_requests_token_and_role_credentials_first service_runtime 0
              call_getOrders
              (start fresh_session
                 [json_reply 200 body_token; json_reply 200 body_assume_role;
                  json_reply 200 body_ok])
              getOrders
              (VObj [("id", VStr "client-id"); ("secret", VStr "client-secret")])
              (VStr "client-id") (VStr "client-secret")
              (VObj [("id", VStr "aws-id"); ("secret", VStr "aws-secret");
                     ("role", VStr "role-arn")])
              {| statusCode := 200; body := body_token; chunks := []; headers := [] |}
              (VStr "fresh-token")
              {| statusCode := 200; body := body_assume_role; chunks := [];
                 headers := [] |}
              sts_credentials
              {| statusCode := 200; body := body_ok; chunks := []; headers := [] |}
              (VObj [("ok", VBool true)]) [])
    as (st' & key_id & key_secret & session_token & Hreturn & Hk & Hs & Ht
        & Haccess & Hrole & _ & Hlog);
    try reflexivity.
  - exists parsed_token. repeat split.
  - exists parsed_assume_role. eexists _, _. repeat split.
  - exists parsed_ok, VUndef. repeat split. by exists VUndef.
  - injection Hk as <-. injection Hs as <-. injection Ht as <-.
    exists st'. repeat (split; [done |]). exact Hlog.
Defined.

(** The first call of a grantless operation. *)
Lemma callAPI_grantless_first_call_witness :
  exists st',
    callAPI service_runtime 1 (call "getSubscription")
      (start ready_session [json_reply 200 body_token; json_reply 200 body_ok])
    = (Return (VObj [("ok", VBool true)]), st')
    /\ _grantless_tokens (sess st') !! "sellingpartnerapi::notifications"
       = Some (VStr "fresh-token")
    /\ access_token (sess st') = VStr "stale-token"
    /\ log (wld st')
       = [EvRequest
            (token_request (stringify notifications_grant));
          EvRequest (sign_api (Some "eu") false (VStr "fresh-token")
                       (_role_credentials ready_session)
                       (getSubscription (call "getSubscription")))].
Proof.
  destruct (callAPI_requests_grantless_token_first service_runtime 0
              (call "getSubscription")
              (start ready_session [json_reply 200 body_token; json_reply 200 body_ok])
              getSubscription "sellingpartnerapi::notifications"
              (VObj [("id", VStr "client-id"); ("secret", VStr "client-secret")])
              (VStr "client-id") (VStr "client-secret")
              {| statusCode := 200; body := body_token; chunks := []; headers := [] |}
              (VStr "fresh-token")
              {| statusCode := 200; body := body_ok; chunks := []; headers := [] |}
              (VObj [("ok", VBool true)]) [])
    as (st' & Hreturn & Htoken & Haccess & _ & _ & Hlog);
    try reflexivity.
  - compute_done.
  - exists parsed_token. repeat split.
  - exists parsed_ok, VUndef. repeat split. by exists VUndef.
  - exists st'. repeat (split; [done |]). exact Hlog.
Defined.

(** A report is downloaded into a file: it is written and returned. *)
Lemma download_saves_what_it_returns_witness :
  download service_runtime feed_details
    {| opt_json := false; opt_unzip := None; opt_file := Some report_file;
       opt_charset := None |}
    (start ready_session [report_reply "text/xml"])
  = (Return (DocValue (VStr report_text)),
     {| sess := ready_session;
        wld := {| inbox := [];
                  log := [EvRequest {| rq_method := None; rq_url := VStr document_url;
                                       rq_headers := []; rq_body := NoBody |};
                          EvWriteFile report_file (DocValue (VStr report_text))] |} |}).
Proof.
  destruct (download_saves_what_it_returns service_runtime feed_details
              {| opt_json := false; opt_unzip := None; opt_file := Some report_file;
                 opt_charset := None |}
              (start ready_session [report_reply "text/xml"]) report_file eq_refl)
    as [_ Hsaved]; [discriminate |].
  rewrite (Hsaved (DocValue (VStr report_text))
             {| sess := ready_session;
                wld := {| inbox := [];
                          log := [EvRequest {| rq_method := None;
                                               rq_url := VStr document_url;
                                               rq_headers := []; rq_body := NoBody |}] |} |});
    [reflexivity | vm_compute; reflexivity | reflexivity].
Defined.


(** A report with the content type "text/xml" and the option [json]. *)
Lemma download_json_witness :
  download service_runtime feed_details
    {| opt_json := true; opt_unzip := None; opt_file := None; opt_charset := None |}
    (start ready_session [report_reply "text/xml"])
  = (Return (DocValue parsed_report),
     {| sess := ready_session;
        wld := {| inbox := [];
                  log := [EvRequest {| rq_method := None; rq_url := VStr document_url;
                                       rq_headers := []; rq_body := NoBody |}] |} |}).
Proof.
  destruct (download_json service_runtime feed_details
              {| opt_json := true; opt_unzip := None; opt_file := None;
                 opt_charset := None |}
              (start ready_session [report_reply "text/xml"])
              {| statusCode := 200; body := "";
                 chunks := [sealed (text_encode report_text)];
                 headers := [("content-type", "text/xml")] |}
              [] report_text
              {| sess := ready_session;
                 wld := {| inbox := [];
                           log := [EvRequest {| rq_method := None;
                                                rq_url := VStr document_url;
                                                rq_headers := [];
                                                rq_body := NoBody |}] |} |})
    as [_ Htyped];
    [reflexivity | reflexivity | reflexivity | vm_compute; reflexivity |].
  destruct (Htyped "text/xml" eq_refl) as [Hxml _].
  rewrite (Hxml eq_refl). reflexivity.
Defined.

End Examples.
